(** * EcoDev: the duplicate checker and the batch sender

    A shallow embedding of [check_uniqueness.py] and [send_batch.py].
    Python values are modelled by the Rocq types closest to them, a Python
    [set] by stdpp's [gset], the file system by a [gmap] from path names to
    contents, and every effect (printing, raising, writing a file, calling
    the OpenAI client) by explicit state passing in a small state-and-
    exception monad. *)

From Stdlib Require Import Ascii String.
From stdpp Require Import base numbers list sets gmap strings pretty.

#[local] Set Warnings "-clear-no-such-hyp,-register-all".


(** ** Python outcomes *)

(** The exceptions the two scripts can meet.  [SystemExit] and
    [KeyboardInterrupt] derive from [BaseException] only; the others are
    instances of [Exception]. *)
Inductive exn : Type :=
| SystemExit (code : Z)
| KeyboardInterrupt
| ImportError (msg : string)
| TypeError (msg : string)
| OSError (msg : string)
| OpenAIError (msg : string)
| UnicodeEncodeError (msg : string).

(** [isinstance(e, Exception)], what [except Exception] tests. *)
Definition is_Exception (e : exn) : bool :=
  match e with
  | SystemExit _ | KeyboardInterrupt => false
  | ImportError _ | TypeError _ | OSError _ | OpenAIError _
  | UnicodeEncodeError _ => true
  end.

(** [isinstance(e, ImportError)], what [except ImportError] tests. *)
Definition is_ImportError (e : exn) : bool :=
  match e with
  | ImportError _ => true
  | _ => false
  end.

(** [str(exc)], as [print] shows an exception. *)
Definition exn_str (e : exn) : string :=
  match e with
  | SystemExit code => pretty code
  | KeyboardInterrupt => ""
  | ImportError msg | TypeError msg | OSError msg | OpenAIError msg
  | UnicodeEncodeError msg => msg
  end.

(** A Python call either returns a value or raises. *)
Inductive outcome (T : Type) : Type :=
| Return (v : T)
| Raise (e : exn).
Arguments Return {T} v.
Arguments Raise {T} e.

(** A computation over a state [St]: the state reached is kept when the
    computation raises, as side effects made before a [raise] are. *)
Definition M (St T : Type) : Type := St → outcome T * St.

Definition ret {St T} (v : T) : M St T := λ st, (Return v, st).

Definition raise {St T} (e : exn) : M St T := λ st, (Raise e, st).

Definition bind {St T U} (c : M St T) (k : T → M St U) : M St U :=
  λ st, match c st with
        | (Return v, st') => k v st'
        | (Raise e, st') => (Raise e, st')
        end.

(** [try: c except <cls> as exc: h exc], where [catches] is the
    [isinstance] test of the handler's class. *)
Definition try_except {St T} (c : M St T) (catches : exn → bool)
    (h : exn → M St T) : M St T :=
  λ st, match c st with
        | (Return v, st') => (Return v, st')
        | (Raise e, st') => if catches e then h e st' else (Raise e, st')
        end.

(** A pure computation that may raise, run inside [M]. *)
Definition lift {St T} (o : outcome T) : M St T := λ st, (o, st).

Definition obind {T U} (o : outcome T) (k : T → outcome U) : outcome U :=
  match o with
  | Return v => k v
  | Raise e => Raise e
  end.

Declare Scope py_scope.
Delimit Scope py_scope with py.
Notation "'let!' x ':=' c 'in' k" := (bind c (λ x, k))
  (at level 10, x pattern, c at level 100, k at level 200) : py_scope.
Notation "c ';;;' k" := (bind c (λ _, k))
  (at level 100, k at level 200, right associativity) : py_scope.
Notation "'let?' x ':=' o 'in' k" := (obind o (λ x, k))
  (at level 10, x pattern, o at level 100, k at level 200) : py_scope.

(** ** check_uniqueness.py *)

Module CheckUniqueness.
Section check.
(** Items are values of a countable type whose equality is Python's [==]
    (strings, in the repository's use).  [hashable x] says whether
    [hash(x)] returns; it raises [TypeError] otherwise, as for a list. *)
Context `{Countable A} (hashable : A → bool).

(** What one call of [print] wrote.  [print(text, list(d))] shows the
    elements of the set [d], each once, in the set's iteration order,
    which Python leaves unspecified: the model lists them as [elements d]
    and no statement below depends on that order. *)
Inductive line : Type :=
| Text (text : string)
| TextList (text : string) (elems : list A).

Definition print (text : string) : M (list line) unit :=
  λ out, (Return tt, out ++ [Text text]).

Definition print_list (text : string) (elems : list A)
  : M (list line) unit :=
  λ out, (Return tt, out ++ [TextList text elems]).

Definition unhashable : exn := TypeError "unhashable type".

(** [s.add(x)] *)
Definition set_add (x : A) (s : gset A) : outcome (gset A) :=
  if hashable x then Return ({[x]} ∪ s) else Raise unhashable.

(** [x in s] *)
Definition set_in (x : A) (s : gset A) : outcome bool :=
  if hashable x then Return (bool_decide (x ∈ s)) else Raise unhashable.

(** [set(items)], filled in iteration order from the accumulator. *)
Fixpoint set_from (items : list A) (acc : gset A) : outcome (gset A) :=
  match items with
  | [] => Return acc
  | x :: rest => (let? acc' := set_add x acc in set_from rest acc')%py
  end.

Definition py_set (items : list A) : outcome (gset A) := set_from items ∅.

(** The [for item in items] loop over the locals [seen], [duplicates]. *)
Fixpoint scan (items : list A) (seen duplicates : gset A)
  : outcome (gset A * gset A) :=
  match items with
  | [] => Return (seen, duplicates)
  | item :: rest =>
      (let? found := set_in item seen in
       if found : bool
       then let? duplicates' := set_add item duplicates in
            scan rest seen duplicates'
       else let? seen' := set_add item seen in
            scan rest seen' duplicates)%py
  end.

(** [list(duplicates)]: the elements of the set, each once.  Python's
    order depends on the hash seed and on the insertions made; the model
    takes the order of [elements], and the statements about the check are
    made on the set of the values listed and on how often each is listed,
    never on their order. *)
Definition py_list (d : gset A) : list A := elements d.

Definition check_list_uniqueness (items : list A) : M (list line) unit :=
  (let! distinct := lift (py_set items) in
   if bool_decide (length items = size distinct)
   then print "All items in the list are unique!"
   else
     print "There are duplicate items in the list.";;;
     let! (seen, duplicates) := lift (scan items ∅ ∅) in
     print_list "Duplicate items found:" (py_list duplicates))%py.

(** *** The Duplicate Report

    The function returns [None]; the report of the specification is what
    it prints.  [report_of] reads a report off the printed lines. *)
Record Report : Type := mkReport {
  unique : bool;
  duplicates : gset A
}.

Definition report_of (out : list line) : option Report :=
  match out with
  | [Text "All items in the list are unique!"] =>
      Some (mkReport true ∅)
  | [Text "There are duplicate items in the list.";
     TextList "Duplicate items found:" elems] =>
      Some (mkReport false (list_to_set elems))
  | _ => None
  end.

(** The number of times [x] appears in [items]. *)
Definition multiplicity (x : A) (items : list A) : nat :=
  length (filter (λ y, y = x) items).

(** Every element can be hashed. *)
Definition all_hashable (items : list A) : Prop :=
  Forall (λ x, hashable x = true) items.

(** The lines one call prints, on a standard output empty before it. *)
Definition printed (items : list A) : list line :=
  (check_list_uniqueness items []).2.

(** The items a printout lists, with repetitions if it has any. *)
Definition listed (out : list line) : list A :=
  flat_map (λ l, match l with
                 | Text _ => []
                 | TextList _ elems => elems
                 end) out.

(** The alternative the specification allows: no quick test, always the
    detailed scan, and the verdict read off the scan's [duplicates]. *)
Definition report_by_scan (items : list A) : outcome Report :=
  (let? (seen, dups) := scan items ∅ ∅ in
   Return (mkReport (bool_decide (dups = ∅)) dups))%py.

End check.

(** Every string can be hashed. *)
Definition str_hashable (s : string) : bool := true.

(** A type with values that cannot be hashed: the numbers from 5 on stand
    for them. *)
Definition small_hashable (n : nat) : bool := bool_decide (n < 5).

End CheckUniqueness.

(** ** send_batch.py *)

Module SendBatch.

(** *** JSON values and [json.dumps]

    A Python [str] is modelled by the bytes of its UTF-8 encoding, which
    is what [fp.write] puts in a file opened with [encoding="utf-8"].  A
    [str] may hold a lone surrogate (a code point from U+D800 to U+DFFF),
    which UTF-8 refuses: it is modelled by the three bytes its code point
    would take, 0xED, then a byte from 0xA0 to 0xBF, then a continuation
    byte.  A [dict] literal keeps its keys in the order written. *)
Inductive json : Type :=
| JStr (s : string)
| JArr (items : list json)
| JObj (members : list (string * json)).

Definition quote : ascii := "034"%char.
Definition backslash : ascii := "092"%char.
Definition newline : ascii := "010"%char.

Definition hex_digit (n : N) : ascii :=
  match n with
  | 0 => "0" | 1 => "1" | 2 => "2" | 3 => "3" | 4 => "4" | 5 => "5"
  | 6 => "6" | 7 => "7" | 8 => "8" | 9 => "9" | 10 => "a" | 11 => "b"
  | 12 => "c" | 13 => "d" | 14 => "e" | _ => "f"
  end%char%N.

(** The replacement [json.encoder] makes for one character when
    [ensure_ascii=False]: the quote, the backslash and the control
    characters below 0x20 are escaped, every other byte is kept. *)
Definition escape_char (c : ascii) : string :=
  let n := N_of_ascii c in
  if (n =? 92)%N then String backslash (String backslash "")
  else if (n =? 34)%N then String backslash (String quote "")
  else if (n =? 8)%N then String backslash "b"
  else if (n =? 12)%N then String backslash "f"
  else if (n =? 10)%N then String backslash "n"
  else if (n =? 13)%N then String backslash "r"
  else if (n =? 9)%N then String backslash "t"
  else if (n <? 32)%N
       then String backslash
              ("u00" +:+ String (hex_digit (n `div` 16)%N)
                         (String (hex_digit (n `mod` 16)%N) ""))
       else String c "".

Fixpoint escape (s : string) : string :=
  match s with
  | EmptyString => ""
  | String c rest => escape_char c +:+ escape rest
  end.

Definition encode_string (s : string) : string :=
  String quote (escape s +:+ String quote "").

(** [json.dumps(j, ensure_ascii=False)] with the default separators. *)
Fixpoint dumps (j : json) : string :=
  match j with
  | JStr s => encode_string s
  | JArr items => "[" +:+ String.concat ", " (map dumps items) +:+ "]"
  | JObj members =>
      "{" +:+ String.concat ", "
                (map (λ kv, let '(key, value) := kv in
                            encode_string key +:+ ": " +:+ dumps value)
                     members)
          +:+ "}"
  end.

(** [d[key]] on a JSON object. *)
Fixpoint assoc (key : string) (members : list (string * json))
  : option json :=
  match members with
  | [] => None
  | (k, v) :: rest => if decide (k = key) then Some v else assoc key rest
  end.

Definition member (key : string) (j : json) : option json :=
  match j with
  | JObj members => assoc key members
  | _ => None
  end.

(** *** Encoding text for the file *)

(** No lone surrogate in [s]: the byte 0xED is never followed by a byte
    from 0xA0 to 0xBF.  [after_ed] says whether the byte before [s] was
    0xED. *)
Fixpoint surrogate_free (after_ed : bool) (s : string) : bool :=
  match s with
  | EmptyString => true
  | String c rest =>
      negb (after_ed && bool_decide (160 ≤ N_of_ascii c ≤ 191)%N)
      && surrogate_free (bool_decide (N_of_ascii c = 237%N)) rest
  end.

(** [s.encode("utf-8")] returns; it raises [UnicodeEncodeError]
    otherwise. *)
Definition utf8_encodable (s : string) : bool := surrogate_free false s.

(** *** Paths, constants and the world the script runs in *)

(** A [pathlib.Path]: the path as text and its [stem]. *)
Record Path : Type := mkPath {
  path_str : string;
  stem : string
}.

Definition JSONL_PATH : Path :=
  mkPath "data/ecodev_2000_problems.jsonl" "ecodev_2000_problems".
Definition MODEL : string := "o4-mini".
Definition EFFORT : string := "high".

(** A call made to the OpenAI client. *)
Inductive api_call : Type :=
| FilesCreate (content purpose : string)
| BatchesCreate (input_file_id endpoint completion_window description
                 : string).

(** The state the script acts on: the lines printed, the files on disk
    and the calls that reached the OpenAI client, oldest first. *)
Record world : Type := mkWorld {
  stdout : list string;
  files : gmap string string;
  requests : list api_call
}.

(** What [data.problem_list.problems] is bound to: a list (of strings,
    as the annotation [List[str]] has it) or an object of another
    type. *)
Inductive pyobj : Type :=
| PyList (l : list string)
| PyOther.

(** What the script does not define itself: the module
    [data.problem_list], the key in [env], whether a path can be opened
    for writing, and the answers of the OpenAI client. *)
Record environment : Type := mkEnv {
  import_problems : outcome pyobj;
  api_key : string;
  can_open_w : string → bool;
  OpenAI : string → outcome unit;
  files_create : string → string → outcome string;
  batches_create : string → string → string → string → outcome string
}.

(** The process's end, as [sys.exit(main())] and the interpreter decide
    it: an exit status, or an uncaught exception, on which the
    interpreter ends with a non-zero status. *)
Inductive completion : Type :=
| Exited (status : Z)
| Uncaught (e : exn).

Definition succeeded (c : completion) : Prop := c = Exited 0.

Definition print (text : string) : M world unit :=
  λ w, (Return tt, mkWorld (stdout w ++ [text]) (files w) (requests w)).

(** [sys.exit(code)] *)
Definition sys_exit {T} (code : Z) : M world T := raise (SystemExit code).

Section script.
Variable E : environment.

(** [path.open("w")]: the file is created or truncated. *)
Definition open_w (path : Path) : M world unit :=
  λ w, if can_open_w E (path_str path)
       then (Return tt,
             mkWorld (stdout w) (<[path_str path := ""]> (files w))
                     (requests w))
       else (Raise (OSError "cannot open for writing"), w).

(** [fp.write(data)] on the file opened at [path]: the text is encoded
    as a whole before any of it reaches the file, so a text that cannot
    be encoded leaves the file as the earlier writes made it. *)
Definition fp_write (path : Path) (data : string) : M world unit :=
  λ w, if utf8_encodable data
       then (Return tt,
             mkWorld (stdout w)
                     (<[path_str path :=
                          default "" (files w !! path_str path) +:+ data]>
                        (files w))
                     (requests w))
       else (Raise (UnicodeEncodeError "surrogates not allowed"), w).

(** [path.open("rb")] followed by the read the upload makes. *)
Definition read_rb (path : Path) : M world string :=
  λ w, match files w !! path_str path with
       | Some content => (Return content, w)
       | None => (Raise (OSError "no such file"), w)
       end.

Definition load_problems : M world (list string) :=
  (let! problems :=
     try_except (lift (import_problems E)) is_ImportError
       (λ exc,
          print ("Could not import `data.problem_list.problems`: "
                 +:+ exn_str exc);;;
          sys_exit 1) in
   match problems with
   | PyList l => ret l
   | PyOther =>
       print "`data.problem_list.problems` should be a list of strings.";;;
       sys_exit 1
   end)%py.

(** The dictionary built for the problem numbered [idx]. *)
Definition entry (idx : nat) (problem : string) : json :=
  JObj [("custom_id", JStr ("request-" +:+ pretty idx));
        ("method", JStr "POST");
        ("url", JStr "/v1/chat/completions");
        ("body",
         JObj [("model", JStr MODEL);
               ("messages",
                JArr [JObj [("role", JStr "user");
                            ("content", JStr problem)]]);
               ("reasoning_effort", JStr EFFORT)])].

(** The loop [for idx, problem in enumerate(problems, start=idx)]. *)
Fixpoint write_entries (path : Path) (idx : nat) (problems : list string)
  : M world unit :=
  match problems with
  | [] => ret tt
  | problem :: rest =>
      (fp_write path (dumps (entry idx problem) +:+ String newline "");;;
       write_entries path (S idx) rest)%py
  end.

Definition write_jsonl (problems : list string) (path : Path)
  : M world unit :=
  (open_w path;;; write_entries path 1 problems)%py.

Definition client_files_create (content purpose : string)
  : M world string :=
  λ w, (files_create E content purpose,
        mkWorld (stdout w) (files w)
                (requests w ++ [FilesCreate content purpose])).

Definition client_batches_create
    (input_file_id endpoint completion_window description : string)
  : M world string :=
  λ w, (batches_create E input_file_id endpoint completion_window
          description,
        mkWorld (stdout w) (files w)
                (requests w ++ [BatchesCreate input_file_id endpoint
                                  completion_window description])).

Definition create_and_send_batch (jsonl_path : Path) : M world unit :=
  (lift (OpenAI E (api_key E));;;
   print ("Uploading '" +:+ path_str jsonl_path
          +:+ "' (purpose='batch')…");;;
   let! content := read_rb jsonl_path in
   let! batch_input_file := client_files_create content "batch" in
   print ("File uploaded – id: " +:+ batch_input_file);;;
   print "Creating batch request…";;;
   let! response :=
     client_batches_create batch_input_file "/v1/chat/completions"
       "24h" (stem jsonl_path) in
   print "Batch request submitted.";;;
   print ("Batch id: " +:+ response))%py.

Definition main : M world Z :=
  (let! problems := load_problems in
   if bool_decide (problems = [])
   then print "Problem list is empty – nothing to do.";;; ret 1%Z
   else
     print ("Loaded " +:+ pretty (length problems) +:+ " problems.");;;
     write_jsonl problems JSONL_PATH;;;
     print ("Written JSONL file to '" +:+ path_str JSONL_PATH +:+ "'.");;;
     try_except (create_and_send_batch JSONL_PATH;;; ret 0%Z)
       is_Exception
       (λ exc,
          print ("Error while communicating with OpenAI API: "
                 +:+ exn_str exc);;;
          ret 1%Z))%py.

(** [if __name__ == "__main__": sys.exit(main())] *)
Definition script (w : world) : completion * world :=
  match main w with
  | (Return code, w') => (Exited code, w')
  | (Raise (SystemExit code), w') => (Exited code, w')
  | (Raise e, w') => (Uncaught e, w')
  end.

End script.

(** What the OpenAI client answers to the calls [create_and_send_batch]
    makes for a file of the given content: the identifiers of the uploaded
    file and of the batch, or the first exception raised. *)
Definition api_answers (E : environment) (content : string)
    (jsonl_path : Path) : outcome (string * string) :=
  (let? _ := OpenAI E (api_key E) in
   let? file_id := files_create E content "batch" in
   let? batch_id :=
     batches_create E file_id "/v1/chat/completions" "24h"
       (stem jsonl_path) in
   Return (file_id, batch_id))%py.

(** *** The JSONL format *)

(** The file [write_jsonl] is to produce: one dumped entry per problem,
    numbered from [idx], each ended by a newline. *)
Fixpoint jsonl_from (idx : nat) (problems : list string) : string :=
  match problems with
  | [] => ""
  | problem :: rest =>
      (dumps (entry idx problem) +:+ String newline "")
      +:+ jsonl_from (S idx) rest
  end.

(** The records of a JSONL text: its lines, each ended by a newline. *)
Fixpoint jsonl_lines (content : string) : list string :=
  match content with
  | EmptyString => []
  | String c rest =>
      if decide (c = newline) then "" :: jsonl_lines rest
      else match jsonl_lines rest with
           | [] => [String c ""]
           | l :: ls => String c l :: ls
           end
  end.

Fixpoint newline_free (s : string) : bool :=
  match s with
  | EmptyString => true
  | String c rest => bool_decide (c ≠ newline) && newline_free rest
  end.

(** *** Names for the lines printed and the calls made *)

Definition uploading (path : Path) : string :=
  "Uploading '" +:+ path_str path +:+ "' (purpose='batch')…".

Definition upload_call (content : string) : api_call :=
  FilesCreate content "batch".

Definition batch_call (file_id : string) (path : Path) : api_call :=
  BatchesCreate file_id "/v1/chat/completions" "24h" (stem path).

Definition loaded_line (problems : list string) : string :=
  "Loaded " +:+ pretty (length problems) +:+ " problems.".

Definition written_line : string :=
  "Written JSONL file to '" +:+ path_str JSONL_PATH +:+ "'.".

Definition error_line (e : exn) : string :=
  "Error while communicating with OpenAI API: " +:+ exn_str e.

(** The world in which the upload starts. *)
Definition written (problems : list string) (w : world) : world :=
  mkWorld (stdout w ++ [loaded_line problems; written_line])
          (<[path_str JSONL_PATH := jsonl_from 1 problems]> (files w))
          (requests w).

(** *** Problem lists that can and cannot be written *)

(** Every problem text can be encoded. *)
Definition all_encodable (problems : list string) : Prop :=
  Forall (λ problem, utf8_encodable problem = true) problems.

(** The problems before the first one that cannot be encoded. *)
Fixpoint encodable_prefix (problems : list string) : list string :=
  match problems with
  | [] => []
  | problem :: rest =>
      if utf8_encodable problem then problem :: encodable_prefix rest
      else []
  end.

(** Every byte of [s] is below 0x80. *)
Fixpoint ascii_only (s : string) : bool :=
  match s with
  | EmptyString => true
  | String c rest => bool_decide (N_of_ascii c < 128)%N && ascii_only rest
  end.

(** [s] between two quotes. *)
Definition quoted (s : string) : string :=
  String quote (s +:+ String quote "").

(** The line of the problem numbered [idx], written out. *)
Definition record_text (idx : nat) (problem : string) : string :=
  "{" +:+ quoted "custom_id" +:+ ": "
      +:+ quoted ("request-" +:+ pretty idx) +:+ ", "
      +:+ quoted "method" +:+ ": " +:+ quoted "POST" +:+ ", "
      +:+ quoted "url" +:+ ": " +:+ quoted "/v1/chat/completions" +:+ ", "
      +:+ quoted "body" +:+ ": {"
      +:+ quoted "model" +:+ ": " +:+ quoted "o4-mini" +:+ ", "
      +:+ quoted "messages" +:+ ": [{"
      +:+ quoted "role" +:+ ": " +:+ quoted "user" +:+ ", "
      +:+ quoted "content" +:+ ": " +:+ quoted (escape problem)
      +:+ "}], "
      +:+ quoted "reasoning_effort" +:+ ": " +:+ quoted "high" +:+ "}}".

(** A text that is the lone surrogate U+D800. *)
Definition lone_surrogate : string :=
  String "237" (String "160" (String "128" "")).

(** *** Two runs to try the script on *)

(** An environment with two problems in which the file is uploaded and
    the batch request is then refused. *)
Definition env_api_down : environment :=
  mkEnv (Return (PyList ["What is 1+1?"; "Name a prime."]))
        "sk-test"
        (λ _, true)
        (λ _, Return tt)
        (λ _ _, Return "file-1")
        (λ _ _ _ _, Raise (OpenAIError "service unavailable")).

(** The same environment with an API that answers. *)
Definition env_api_up : environment :=
  mkEnv (Return (PyList ["What is 1+1?"; "Name a prime."]))
        "sk-test"
        (λ _, true)
        (λ _, Return tt)
        (λ _ _, Return "file-1")
        (λ _ _ _ _, Return "batch-1").

(** A world in which an older JSONL file is on disk. *)
Definition stale_world : world :=
  mkWorld [] {[ path_str JSONL_PATH := "stale" ]} [].

(** *** Reading escaped text back *)

(** No character of [s] is a control character below 0x20, the ones JSON
    forbids inside a string. *)
Fixpoint control_free (s : string) : bool :=
  match s with
  | EmptyString => true
  | String c rest => bool_decide (32 ≤ N_of_ascii c)%N && control_free rest
  end.

Definition hex_value (c : ascii) : option N :=
  let n := N_of_ascii c in
  if bool_decide (48 ≤ n ≤ 57)%N then Some (n - 48)%N
  else if bool_decide (97 ≤ n ≤ 102)%N then Some (n - 87)%N
  else None.

(** The character that the front of an escaped text stands for, and the
    text after it; [None] at a bare quote, at a bare control character and
    at the end, where no escaped character starts. *)
Definition read_escaped (s : string) : option (ascii * string) :=
  match s with
  | EmptyString => None
  | String c rest =>
      if decide (c = backslash) then
        match rest with
        | EmptyString => None
        | String d rest' =>
            if decide (d = backslash) then Some (backslash, rest')
            else if decide (d = quote) then Some (quote, rest')
            else if decide (d = "b"%char) then Some ("008"%char, rest')
            else if decide (d = "f"%char) then Some ("012"%char, rest')
            else if decide (d = "n"%char) then Some ("010"%char, rest')
            else if decide (d = "r"%char) then Some ("013"%char, rest')
            else if decide (d = "t"%char) then Some ("009"%char, rest')
            else if decide (d = "u"%char) then
              match rest' with
              | String "0" (String "0" (String h (String l rest''))) =>
                  match hex_value h, hex_value l with
                  | Some hi, Some lo =>
                      Some (ascii_of_N (16 * hi + lo), rest'')
                  | _, _ => None
                  end
              | _ => None
              end
            else None
        end
      else if decide (c = quote) then None
      else if bool_decide (N_of_ascii c < 32)%N then None
      else Some (c, rest)
  end.

(** A text without a quote, a backslash or a control character below
    0x20; bytes from 0x80 on, which make up the characters outside ASCII,
    are allowed. *)
Fixpoint plain (s : string) : bool :=
  match s with
  | EmptyString => true
  | String c rest =>
      bool_decide (32 ≤ N_of_ascii c)%N
      && bool_decide (c ≠ quote) && bool_decide (c ≠ backslash)
      && plain rest
  end.

(** *** More runs to try the script on *)

(** The import and the client raise instances of [Exception] only. *)
Definition ordinary_failures (E : environment) : Prop :=
  (∀ e, import_problems E = Raise e → is_Exception e = true)
  ∧ (∀ content e,
       api_answers E content JSONL_PATH = Raise e → is_Exception e = true).

(** The data directory cannot be written to. *)
Definition env_read_only : environment :=
  mkEnv (Return (PyList ["What is 1+1?"; "Name a prime."]))
        "sk-test"
        (λ _, false)
        (λ _, Return tt)
        (λ _ _, Return "file-1")
        (λ _ _ _ _, Return "batch-1").

(** The user interrupts the upload. *)
Definition env_interrupted : environment :=
  mkEnv (Return (PyList ["What is 1+1?"; "Name a prime."]))
        "sk-test"
        (λ _, true)
        (λ _, Return tt)
        (λ _ _, Raise KeyboardInterrupt)
        (λ _ _ _ _, Return "batch-1").

(** Importing the problem list fails with an error other than
    [ImportError]. *)
Definition env_broken_import : environment :=
  mkEnv (Raise (TypeError "unsupported operand"))
        "sk-test"
        (λ _, true)
        (λ _, Return tt)
        (λ _ _, Return "file-1")
        (λ _ _ _ _, Return "batch-1").

(** A world with nothing printed, no file and no call made. *)
Definition fresh_world : world := mkWorld [] ∅ [].

(** The second of three problems holds a lone surrogate. *)
Definition env_surrogate : environment :=
  mkEnv (Return (PyList ["What is 1+1?"; lone_surrogate; "Name a prime."]))
        "sk-test"
        (λ _, true)
        (λ _, Return tt)
        (λ _ _, Return "file-1")
        (λ _ _ _ _, Return "batch-1").

End SendBatch.

(** ** Facts about check_uniqueness.py *)

Section check_facts.
Import CheckUniqueness.
Context `{Countable A} (hashable : A → bool).
Implicit Types (x : A) (items : list A) (seen dups : gset A).

Local Abbreviation all_hashable := (all_hashable hashable).
Local Abbreviation check := (check_list_uniqueness hashable).
Local Abbreviation printed := (printed hashable).

Lemma multiplicity_nil x : multiplicity x [] = 0.
Proof. reflexivity. Qed.

Lemma multiplicity_cons x y items :
  multiplicity x (y :: items)
  = (if decide (y = x) then 1 else 0) + multiplicity x items.
Proof.
  unfold multiplicity. rewrite filter_cons.
  destruct (decide (y = x)); reflexivity.
Qed.

Lemma multiplicity_elem_of x items : x ∈ items ↔ 1 ≤ multiplicity x items.
Proof.
  induction items as [|y items IH].
  - rewrite multiplicity_nil. split; [by intros ?%elem_of_nil | lia].
  - rewrite multiplicity_cons, elem_of_cons, IH.
    destruct (decide (y = x)) as [->|Hne]; [split; [lia | by left] |].
    split; [intros [->|?]; [done | lia] | intros ?; right; lia].
Qed.

Lemma multiplicity_perm x items items' :
  items ≡ₚ items' → multiplicity x items = multiplicity x items'.
Proof. intros Hp. unfold multiplicity. by rewrite Hp. Qed.

Lemma NoDup_multiplicity items :
  NoDup items ↔ ∀ x, multiplicity x items ≤ 1.
Proof.
  induction items as [|y items IH].
  - split; [intros _ x; rewrite multiplicity_nil; lia | constructor].
  - rewrite NoDup_cons, IH. split.
    + intros [Hy Hle] x. rewrite multiplicity_cons.
      destruct (decide (y = x)) as [->|]; [|apply Hle].
      rewrite multiplicity_elem_of in Hy. lia.
    + intros Hle. split.
      * rewrite multiplicity_elem_of. specialize (Hle y).
        rewrite multiplicity_cons, decide_True in Hle by done. lia.
      * intros x. specialize (Hle x). rewrite multiplicity_cons in Hle. lia.
Qed.

(** [set(items)] cannot be larger than [items]. *)
Lemma size_list_to_set_le items :
  size (list_to_set items : gset A) ≤ length items.
Proof.
  induction items as [|y items IH].
  - rewrite list_to_set_nil, size_empty. done.
  - rewrite list_to_set_cons. cbn [length].
    pose proof (size_union_alt ({[y]} : gset A) (list_to_set items)) as Hs.
    rewrite size_singleton in Hs.
    assert (size (list_to_set items ∖ {[y]} : gset A)
            ≤ size (list_to_set items : gset A)) as Hd
      by (apply subseteq_size; set_solver).
    lia.
Qed.

(** The quick test of line 6 is the test for a list without repeats. *)
Lemma length_size_NoDup items :
  length items = size (list_to_set items : gset A) ↔ NoDup items.
Proof.
  split; [|intros ?; symmetry; by apply size_list_to_set].
  induction items as [|y items IH]; [constructor|].
  rewrite list_to_set_cons. cbn [length]. intros Hlen.
  pose proof (size_list_to_set_le items) as Hle.
  destruct (decide (y ∈ items)) as [Hin|Hnin].
  - replace ({[y]} ∪ list_to_set items : gset A)
      with (list_to_set items : gset A) in Hlen by set_solver. lia.
  - rewrite size_union, size_singleton in Hlen by set_solver.
    constructor; [done | apply IH; lia].
Qed.

Lemma set_from_ok items acc :
  all_hashable items →
  set_from hashable items acc = Return (list_to_set items ∪ acc).
Proof.
  intros Hh. revert acc.
  induction Hh as [|y items Hy _ IH]; intros acc; simpl.
  - f_equal. set_solver.
  - unfold set_add. rewrite Hy. simpl. rewrite IH. f_equal. set_solver.
Qed.

Lemma py_set_ok items :
  all_hashable items → py_set hashable items = Return (list_to_set items).
Proof.
  intros Hh. unfold py_set. rewrite set_from_ok by done.
  f_equal. set_solver.
Qed.

(** The loop invariant of the detailed scan, read at the loop's exit. *)
Lemma scan_ok items seen dups :
  all_hashable items →
  ∃ seen' dups',
    scan hashable items seen dups = Return (seen', dups')
    ∧ seen' = seen ∪ list_to_set items
    ∧ ∀ x, x ∈ dups' ↔
        x ∈ dups ∨ (x ∈ seen ∧ x ∈ items) ∨ 2 ≤ multiplicity x items.
Proof.
  intros Hh. revert seen dups.
  induction Hh as [|y items Hy _ IH]; intros seen dups; simpl.
  - exists seen, dups. split_and!; [done | set_solver |].
    intros x. rewrite multiplicity_nil, elem_of_nil. intuition lia.
  - unfold set_in, set_add. rewrite Hy. simpl.
    destruct (bool_decide_reflect (y ∈ seen)) as [Hin|Hnin]; simpl.
    + destruct (IH seen ({[y]} ∪ dups)) as (s & d & -> & -> & Hd).
      exists (seen ∪ list_to_set items), d.
      split_and!; [done | set_solver |].
      intros x. rewrite Hd, multiplicity_cons, elem_of_cons.
      destruct (decide (y = x)) as [->|Hne]; [set_solver|].
      rewrite elem_of_union, elem_of_singleton. naive_solver.
    + destruct (IH ({[y]} ∪ seen) dups) as (s & d & -> & -> & Hd).
      exists ({[y]} ∪ seen ∪ list_to_set items), d.
      split_and!; [done | set_solver |].
      intros x. rewrite Hd, multiplicity_cons, elem_of_cons.
      rewrite elem_of_union, elem_of_singleton.
      destruct (decide (y = x)) as [->|Hne].
      * rewrite (multiplicity_elem_of x items). intuition lia.
      * naive_solver.
Qed.

(** Started on empty sets, the scan collects the repeated values. *)
Lemma scan_empty_ok items :
  all_hashable items →
  ∃ seen' dups',
    scan hashable items ∅ ∅ = Return (seen', dups')
    ∧ ∀ x, x ∈ dups' ↔ 2 ≤ multiplicity x items.
Proof.
  intros Hh. destruct (scan_ok items ∅ ∅ Hh) as (s & d & Hs & _ & Hd).
  exists s, d. split; [done|]. intros x. rewrite Hd. set_solver.
Qed.

(** What a call does on hashable items: it returns [None] and appends
    one line when nothing repeats, two lines otherwise, the second one
    listing the set of the values met at least twice. *)
Lemma check_run items out :
  all_hashable items →
  ∃ dups,
    (∀ x, x ∈ dups ↔ 2 ≤ multiplicity x items)
    ∧ check items out
      = (Return tt,
         out ++ if decide (NoDup items)
                then [Text "All items in the list are unique!"]
                else [Text "There are duplicate items in the list.";
                      TextList "Duplicate items found:" (elements dups)]).
Proof.
  intros Hh.
  destruct (scan_empty_ok items Hh) as (s & d & Hscan & Hd).
  exists d. split; [done|].
  unfold check_list_uniqueness, bind, lift, print, print_list, py_list.
  rewrite py_set_ok by done.
  destruct (decide (NoDup items)) as [Hnd|Hnd].
  - rewrite bool_decide_eq_true_2 by (by apply length_size_NoDup). done.
  - rewrite bool_decide_eq_false_2 by (by rewrite length_size_NoDup).
    rewrite Hscan. by rewrite <-(assoc_L (++)).
Qed.

Lemma printed_run items :
  all_hashable items →
  ∃ dups,
    (∀ x, x ∈ dups ↔ 2 ≤ multiplicity x items)
    ∧ printed items
      = if decide (NoDup items)
        then [Text "All items in the list are unique!"]
        else [Text "There are duplicate items in the list.";
              TextList "Duplicate items found:" (elements dups)].
Proof.
  intros Hh. destruct (check_run items [] Hh) as (d & Hd & Hrun).
  exists d. split; [done|]. unfold CheckUniqueness.printed. by rewrite Hrun.
Qed.

(** A set without a value met twice belongs to a list without repeats. *)
Lemma no_repeated_NoDup items dups :
  (∀ x, x ∈ dups ↔ 2 ≤ multiplicity x items) →
  dups = ∅ ↔ NoDup items.
Proof.
  intros Hd. rewrite NoDup_multiplicity. split.
  - intros -> x. specialize (Hd x).
    destruct (decide (2 ≤ multiplicity x items)) as [Hx|]; [|lia].
    apply Hd in Hx. set_solver.
  - intros Hle. apply set_eq. intros x. rewrite Hd.
    specialize (Hle x). split; [lia | set_solver].
Qed.

(** The report read off a call's printout. *)
Lemma report_run items :
  all_hashable items →
  ∃ dups,
    (∀ x, x ∈ dups ↔ 2 ≤ multiplicity x items)
    ∧ report_of (printed items)
      = Some (mkReport (bool_decide (NoDup items)) dups).
Proof.
  intros Hh. destruct (printed_run items Hh) as (d & Hd & ->).
  exists d. split; [done|].
  destruct (decide (NoDup items)) as [Hnd|Hnd]; simpl.
  - rewrite bool_decide_eq_true_2 by done.
    by rewrite (proj2 (no_repeated_NoDup items d Hd) Hnd).
  - rewrite bool_decide_eq_false_2 by done.
    by rewrite list_to_set_elements_L.
Qed.

Lemma check_printed items out :
  all_hashable items →
  check items out = (Return tt, out ++ printed items).
Proof.
  intros Hh. destruct (check_run items out Hh) as (d & Hd & ->).
  destruct (printed_run items Hh) as (d' & Hd' & ->).
  replace d' with d; [done|].
  apply set_eq. intros x. by rewrite Hd, Hd'.
Qed.

(** An unhashable item makes [set(items)] raise before anything is
    printed: the hypothesis [all_hashable] below cannot be dropped. *)
Lemma set_from_unhashable items acc :
  ¬ all_hashable items → set_from hashable items acc = Raise unhashable.
Proof.
  revert acc. induction items as [|y items IH]; intros acc Hnh.
  - destruct Hnh. constructor.
  - simpl. unfold set_add. destruct (hashable y) eqn:Hy; [|done].
    simpl. apply IH. intros Hh. apply Hnh. by constructor.
Qed.

Lemma check_unhashable items out :
  ¬ all_hashable items → check items out = (Raise unhashable, out).
Proof.
  intros Hnh. unfold check_list_uniqueness, bind, lift, py_set.
  by rewrite set_from_unhashable.
Qed.

(** C1. For every sequence of hashable items, the duplicate set of the
    report is exactly the set of the values that appear at least twice,
    and the verdict is "unique" if and only if that set is empty. *)
Theorem check_reports_repeated_values items :
  all_hashable items →
  ∃ out r,
    check items [] = (Return tt, out)
    ∧ report_of out = Some r
    ∧ (∀ x, x ∈ duplicates r ↔ 2 ≤ multiplicity x items)
    ∧ (unique r = true ↔ duplicates r = ∅).
Proof.
  intros Hh. destruct (report_run items Hh) as (d & Hd & Hrep).
  exists (printed items), (mkReport (bool_decide (NoDup items)) d).
  split_and!; [by rewrite check_printed | done | done |]. simpl.
  by rewrite bool_decide_eq_true, (no_repeated_NoDup items d Hd).
Qed.

(** C2. The quick test succeeds exactly when the detailed scan finds no
    duplicate, so printing after the quick test (the source) and judging
    by the scan alone (the alternative) give the same report. *)
Theorem quick_test_agrees_with_scan items :
  all_hashable items →
  ∃ distinct seen dups r,
    py_set hashable items = Return distinct
    ∧ scan hashable items ∅ ∅ = Return (seen, dups)
    ∧ (length items = size distinct ↔ dups = ∅)
    ∧ report_of (printed items) = Some r
    ∧ report_by_scan hashable items = Return r.
Proof.
  intros Hh. destruct (scan_empty_ok items Hh) as (s & d & Hscan & Hd).
  destruct (report_run items Hh) as (d' & Hd' & Hrep).
  assert (d' = d) as -> by (apply set_eq; intros x; by rewrite Hd, Hd').
  exists (list_to_set items), s, d, (mkReport (bool_decide (NoDup items)) d).
  split_and!; [by apply py_set_ok | done | | done |].
  - by rewrite length_size_NoDup, (no_repeated_NoDup items d Hd).
  - unfold report_by_scan. rewrite Hscan. simpl. do 2 f_equal.
    apply bool_decide_ext. by rewrite (no_repeated_NoDup items d Hd).
Qed.

(** C3. Permuting the input changes neither the verdict nor the
    duplicate set. *)
Theorem check_order_independent items items' :
  items ≡ₚ items' →
  all_hashable items →
  ∃ r,
    report_of (printed items) = Some r
    ∧ report_of (printed items') = Some r
    ∧ (check items []).1 = (check items' []).1.
Proof.
  intros Hp Hh.
  assert (all_hashable items') as Hh'
    by (unfold CheckUniqueness.all_hashable; by rewrite <-Hp).
  destruct (report_run items Hh) as (d & Hd & Hrep).
  destruct (report_run items' Hh') as (d' & Hd' & Hrep').
  exists (mkReport (bool_decide (NoDup items)) d).
  split_and!; [done | | by rewrite !check_printed].
  rewrite Hrep'. do 2 f_equal.
  - apply bool_decide_ext. by rewrite Hp.
  - apply set_eq. intros x.
    by rewrite Hd, Hd', (multiplicity_perm x items items').
Qed.

(** The printed list shows a value once if it appears at least twice in
    the input and not at all otherwise. *)
Lemma listed_once items x :
  all_hashable items →
  multiplicity x (listed (printed items))
  = if decide (2 ≤ multiplicity x items) then 1 else 0.
Proof.
  intros Hh. destruct (printed_run items Hh) as (d & Hd & ->).
  destruct (decide (NoDup items)) as [Hnd|Hnd]; simpl.
  - rewrite NoDup_multiplicity in Hnd. specialize (Hnd x).
    rewrite decide_False by lia. done.
  - rewrite app_nil_r.
    pose proof (NoDup_elements d) as Hle.
    rewrite NoDup_multiplicity in Hle. specialize (Hle x).
    pose proof (multiplicity_elem_of x (elements d)) as Hin.
    rewrite elem_of_elements, Hd in Hin.
    destruct (decide (2 ≤ multiplicity x items)); lia.
Qed.

Lemma single_not_reported items r x :
  all_hashable items →
  report_of (printed items) = Some r →
  multiplicity x items = 1 →
  x ∉ duplicates r.
Proof.
  intros Hh Hrep Hx. destruct (report_run items Hh) as (d & Hd & Hrep').
  rewrite Hrep' in Hrep. injection Hrep as <-. simpl. rewrite Hd. lia.
Qed.

(** C5. The empty sequence, and every sequence without repeated
    elements, is reported unique with an empty duplicate set. *)
Theorem check_unique_input :
  (check [] [] = (Return tt, [Text "All items in the list are unique!"])
   ∧ report_of (printed []) = Some (mkReport true ∅))
  ∧ ∀ items,
      NoDup items →
      all_hashable items →
      check items [] = (Return tt, [Text "All items in the list are unique!"])
      ∧ report_of (printed items) = Some (mkReport true ∅).
Proof.
  assert (∀ items, NoDup items → all_hashable items →
    check items [] = (Return tt, [Text "All items in the list are unique!"])
    ∧ report_of (printed items) = Some (mkReport true ∅)) as Hgen.
  { intros items Hnd Hh. rewrite check_printed by done.
    destruct (printed_run items Hh) as (d & Hd & ->).
    by rewrite decide_True by done. }
  split; [|done]. apply Hgen; constructor.
Qed.

(** C6, as the code has it.  The function returns [None] and reports by
    printing: a call on hashable items leaves what was printed before in
    place and appends the one or two lines of its report.  The verdict
    and the set of the values listed depend on the input only: the
    verdict is "unique" exactly when no item repeats, and the values
    listed are those met at least twice. *)
Theorem check_prints_its_report items out :
  all_hashable items →
  ∃ lines r,
    check items out = (Return tt, out ++ lines)
    ∧ 1 ≤ length lines ≤ 2
    ∧ report_of lines = Some r
    ∧ (unique r = true ↔ NoDup items)
    ∧ (∀ x, x ∈ duplicates r ↔ 2 ≤ multiplicity x items).
Proof.
  intros Hh. destruct (report_run items Hh) as (d & Hd & Hrep).
  exists (printed items), (mkReport (bool_decide (NoDup items)) d).
  split_and!; [by apply check_printed | | | done | | done].
  - destruct (printed_run items Hh) as (d' & _ & ->).
    destruct (decide (NoDup items)); simpl; lia.
  - destruct (printed_run items Hh) as (d' & _ & ->).
    destruct (decide (NoDup items)); simpl; lia.
  - apply bool_decide_eq_true.
Qed.

(** C7. On hashable items, the empty sequence included, the call
    completes normally: it returns and does not raise. *)
Theorem check_never_raises :
  (∀ items out,
     all_hashable items → ∃ out', check items out = (Return tt, out'))
  ∧ ∀ out, ∃ out', check [] out = (Return tt, out').
Proof.
  assert (∀ items out, all_hashable items →
    ∃ out', check items out = (Return tt, out')) as Hgen.
  { intros items out Hh. eexists. by apply check_printed. }
  split; [done|]. intros out. apply Hgen. constructor.
Qed.

End check_facts.

(** ** The checker on the repository's items: strings *)

Section check_strings.
Import CheckUniqueness.

Lemma str_all_hashable (items : list string) :
  all_hashable str_hashable items.
Proof. apply Forall_forall. done. Qed.

(** C4. Each repeated value is listed exactly once whatever its
    multiplicity, a value that appears once is never in the duplicate
    set, and the two scenarios of the specification come out as
    written. *)
Theorem duplicates_reported_once :
  (∀ `{Countable A} (hashable : A → bool) (items : list A),
     all_hashable hashable items →
     (∀ x, multiplicity x (listed (printed hashable items))
           = if decide (2 ≤ multiplicity x items) then 1 else 0)
     ∧ (∀ r x, report_of (printed hashable items) = Some r →
               multiplicity x items = 1 → x ∉ duplicates r))
  ∧ report_of (printed str_hashable ["x"; "x"; "x"; "y"])
    = Some (mkReport false {["x"]})
  ∧ report_of (printed str_hashable ["a"; "b"; "a"])
    = Some (mkReport false {["a"]}).
Proof.
  split_and!; [|by vm_compute..].
  intros A ?? hashable items Hh. split.
  - intros x. by apply listed_once.
  - intros r x. by apply single_not_reported.
Qed.

Lemma duplicates_reported_once_witness :
  multiplicity "x" (listed (printed str_hashable ["x"; "x"; "x"; "y"])) = 1
  ∧ multiplicity "y" (listed (printed str_hashable ["x"; "x"; "x"; "y"])) = 0.
Proof.
  pose proof (proj1 duplicates_reported_once string _ _ str_hashable
                ["x"; "x"; "x"; "y"] (str_all_hashable _)) as [Hl _].
  split; [exact (Hl "x") | exact (Hl "y")].
Defined.

Lemma check_reports_repeated_values_witness :
  ∃ out r,
    check_list_uniqueness str_hashable ["b"; "a"; "c"; "b"; "a"] []
    = (Return tt, out)
    ∧ report_of out = Some r
    ∧ (∀ x, x ∈ duplicates r
            ↔ 2 ≤ multiplicity x ["b"; "a"; "c"; "b"; "a"])
    ∧ (unique r = true ↔ duplicates r = ∅).
Proof.
  apply (check_reports_repeated_values str_hashable).
  apply str_all_hashable.
Defined.

Lemma quick_test_agrees_with_scan_witness :
  ∃ distinct seen dups r,
    py_set str_hashable ["a"; "b"; "a"] = Return distinct
    ∧ scan str_hashable ["a"; "b"; "a"] ∅ ∅ = Return (seen, dups)
    ∧ (length ["a"; "b"; "a"] = size distinct ↔ dups = ∅)
    ∧ report_of (printed str_hashable ["a"; "b"; "a"]) = Some r
    ∧ report_by_scan str_hashable ["a"; "b"; "a"] = Return r.
Proof.
  apply (quick_test_agrees_with_scan str_hashable).
  apply str_all_hashable.
Defined.

Lemma check_order_independent_witness :
  ∃ r,
    report_of (printed str_hashable ["a"; "b"; "a"]) = Some r
    ∧ report_of (printed str_hashable ["b"; "a"; "a"]) = Some r
    ∧ (check_list_uniqueness str_hashable ["a"; "b"; "a"] []).1
      = (check_list_uniqueness str_hashable ["b"; "a"; "a"] []).1.
Proof.
  apply (check_order_independent str_hashable).
  - apply perm_swap.
  - apply str_all_hashable.
Defined.

Lemma check_unique_input_witness :
  check_list_uniqueness str_hashable ["a"; "b"; "c"] []
  = (Return tt, [Text "All items in the list are unique!"])
  ∧ report_of (printed str_hashable ["a"; "b"; "c"])
    = Some (mkReport true ∅).
Proof.
  apply (proj2 (check_unique_input str_hashable)).
  - apply (bool_decide_unpack _). vm_compute. exact I.
  - apply str_all_hashable.
Defined.

(** The claim of C6 read literally (nothing is printed by the call) fails
    already on the empty list: the call prints its verdict. *)
Lemma check_prints_counterexample :
  (check_list_uniqueness str_hashable [] []).2 ≠ [].
Proof. vm_compute. discriminate. Qed.

Lemma check_prints_its_report_witness :
  ∃ lines r,
    check_list_uniqueness str_hashable ["a"; "b"; "a"] [Text "earlier"]
    = (Return tt, [Text "earlier"] ++ lines)
    ∧ 1 ≤ length lines ≤ 2
    ∧ report_of lines = Some r
    ∧ (unique r = true ↔ NoDup ["a"; "b"; "a"])
    ∧ (∀ x, x ∈ duplicates r ↔ 2 ≤ multiplicity x ["a"; "b"; "a"]).
Proof.
  apply (check_prints_its_report str_hashable).
  apply str_all_hashable.
Defined.

Lemma check_never_raises_witness :
  ∃ out',
    check_list_uniqueness str_hashable ["x"; "x"; "x"; "y"] []
    = (Return tt, out').
Proof.
  apply (proj1 (check_never_raises str_hashable)).
  apply str_all_hashable.
Defined.

(** With an item that cannot be hashed the call raises, having printed
    nothing: here numbers from 5 on stand for unhashable values. *)
Example check_unhashable_example :
  check_list_uniqueness (λ n : nat, bool_decide (n < 5)) [1; 2; 7; 1] []
  = (Raise unhashable, []).
Proof. reflexivity. Qed.

End check_strings.

(** ** Facts about send_batch.py *)

Section jsonl_facts.
Import SendBatch.
Implicit Types (s data content : string) (c : ascii).

Lemma app_cons c s1 s2 : String c s1 +:+ s2 = String c (s1 +:+ s2).
Proof. reflexivity. Qed.

Lemma app_empty_l s : "" +:+ s = s.
Proof. reflexivity. Qed.

Lemma app_assoc_str s1 s2 s3 : (s1 +:+ s2) +:+ s3 = s1 +:+ (s2 +:+ s3).
Proof.
  induction s1 as [|c s1 IH]; [done|].
  by rewrite !app_cons, IH.
Qed.

Lemma newline_free_cons c s :
  newline_free (String c s) = bool_decide (c ≠ newline) && newline_free s.
Proof. reflexivity. Qed.

Lemma newline_free_app s1 s2 :
  newline_free (s1 +:+ s2) = newline_free s1 && newline_free s2.
Proof.
  induction s1 as [|c s1 IH]; [done|].
  by rewrite app_cons, !newline_free_cons, IH, andb_assoc.
Qed.

(** No character is replaced by text that holds a line feed: the line
    feed itself becomes a backslash and an [n]. *)
Lemma escape_char_newline_free c : newline_free (escape_char c) = true.
Proof. by destruct c as [[] [] [] [] [] [] [] []]. Qed.

Lemma escape_newline_free s : newline_free (escape s) = true.
Proof.
  induction s as [|c s IH]; [done|]. simpl.
  by rewrite newline_free_app, escape_char_newline_free, IH.
Qed.

Lemma encode_string_newline_free s : newline_free (encode_string s) = true.
Proof.
  unfold encode_string.
  by rewrite newline_free_cons, newline_free_app, escape_newline_free.
Qed.

Lemma concat_newline_free sep (parts : list string) :
  newline_free sep = true →
  Forall (λ s, newline_free s = true) parts →
  newline_free (String.concat sep parts) = true.
Proof.
  intros Hsep Hparts.
  induction Hparts as [|s parts Hs Hparts IH]; [done|]. simpl.
  destruct parts as [|s' parts]; [done|].
  by rewrite !newline_free_app, Hs, Hsep, IH.
Qed.

(** Induction on JSON values that reaches the values nested in arrays and
    objects. *)
Lemma json_nested_ind (P : json → Prop) :
  (∀ s, P (JStr s)) →
  (∀ items, Forall P items → P (JArr items)) →
  (∀ members, Forall (λ kv, P kv.2) members → P (JObj members)) →
  ∀ j, P j.
Proof.
  intros Hstr Harr Hobj. fix IH 1. intros [s|items|members].
  - apply Hstr.
  - apply Harr. induction items as [|j items IHitems]; constructor.
    + apply IH.
    + apply IHitems.
  - apply Hobj. induction members as [|[key value] members IHmembers];
      constructor.
    + apply IH.
    + apply IHmembers.
Qed.

(** [json.dumps] writes a value on one line. *)
Lemma dumps_newline_free j : newline_free (dumps j) = true.
Proof.
  induction j as [s|items IH|members IH] using json_nested_ind; simpl.
  - apply encode_string_newline_free.
  - rewrite !newline_free_app, concat_newline_free; [done..|].
    by apply Forall_fmap.
  - rewrite !newline_free_app, concat_newline_free; [done..|].
    apply Forall_fmap. eapply Forall_impl; [exact IH|].
    intros [key value] Hv. cbn [snd] in Hv. unfold compose.
    by rewrite !newline_free_app, encode_string_newline_free, Hv.
Qed.

(** A text that starts with a line has that line as its first record. *)
Lemma jsonl_lines_line s rest :
  newline_free s = true →
  jsonl_lines (s +:+ String newline rest) = s :: jsonl_lines rest.
Proof.
  intros Hs. induction s as [|c s IH].
  - reflexivity.
  - rewrite newline_free_cons in Hs.
    apply andb_true_iff in Hs as [Hc%bool_decide_eq_true Hs].
    rewrite app_cons. simpl. rewrite decide_False by done.
    by rewrite IH.
Qed.

Lemma jsonl_lines_jsonl_from idx problems :
  jsonl_lines (jsonl_from idx problems)
  = imap (λ i problem, dumps (entry (idx + i) problem)) problems.
Proof.
  revert idx. induction problems as [|problem rest IH]; intros idx; [done|].
  change (jsonl_from idx (problem :: rest))
    with ((dumps (entry idx problem) +:+ String newline "")
          +:+ jsonl_from (S idx) rest).
  rewrite app_assoc_str, app_cons, app_empty_l.
  rewrite jsonl_lines_line by apply dumps_newline_free.
  rewrite imap_cons, Nat.add_0_r, IH. f_equal.
  apply imap_ext. intros i p _. unfold compose.
  by rewrite Nat.add_succ_comm.
Qed.

End jsonl_facts.

(** ** More on the records of send_batch.py *)

Section records_more.
Import SendBatch.
Implicit Types (s t : string) (c : ascii) (j : json).

Lemma control_free_cons c s :
  control_free (String c s)
  = bool_decide (32 ≤ N_of_ascii c)%N && control_free s.
Proof. reflexivity. Qed.

Lemma control_free_app s1 s2 :
  control_free (s1 +:+ s2) = control_free s1 && control_free s2.
Proof.
  induction s1 as [|c s1 IH]; [done|].
  by rewrite app_cons, !control_free_cons, IH, andb_assoc.
Qed.

Lemma escape_char_control_free c : control_free (escape_char c) = true.
Proof. by destruct c as [[] [] [] [] [] [] [] []]. Qed.

Lemma escape_control_free s : control_free (escape s) = true.
Proof.
  induction s as [|c s IH]; [done|]. simpl.
  by rewrite control_free_app, escape_char_control_free, IH.
Qed.

Lemma encode_string_control_free s : control_free (encode_string s) = true.
Proof.
  unfold encode_string.
  by rewrite control_free_cons, control_free_app, escape_control_free.
Qed.

Lemma concat_control_free sep (parts : list string) :
  control_free sep = true →
  Forall (λ s, control_free s = true) parts →
  control_free (String.concat sep parts) = true.
Proof.
  intros Hsep Hparts.
  induction Hparts as [|s parts Hs Hparts IH]; [done|]. simpl.
  destruct parts as [|s' parts]; [done|].
  by rewrite !control_free_app, Hs, Hsep, IH.
Qed.

Lemma dumps_control_free j : control_free (dumps j) = true.
Proof.
  induction j as [s|items IH|members IH] using json_nested_ind; simpl.
  - apply encode_string_control_free.
  - rewrite !control_free_app, concat_control_free; [done..|].
    by apply Forall_fmap.
  - rewrite !control_free_app, concat_control_free; [done..|].
    apply Forall_fmap. eapply Forall_impl; [exact IH|].
    intros [key value] Hv. cbn [snd] in Hv. unfold compose.
    by rewrite !control_free_app, encode_string_control_free, Hv.
Qed.

(** X4. [json.dumps] gives a one-line text, as the comment before
    [fp.write] says: whatever the value, the dump holds no control
    character, so no line feed, and so does every record of a file. *)
Theorem records_are_one_line :
  (∀ j, control_free (dumps j) = true ∧ newline_free (dumps j) = true)
  ∧ ∀ idx problems,
      Forall (λ record, control_free record = true)
             (jsonl_lines (jsonl_from idx problems)).
Proof.
  split.
  - intros j. split; [apply dumps_control_free | apply dumps_newline_free].
  - intros idx problems. rewrite jsonl_lines_jsonl_from.
    apply Forall_forall. intros record (i & Hi)%list_elem_of_lookup_1.
    rewrite list_lookup_imap in Hi.
    destruct (problems !! i) as [problem|]; [|done].
    assert (record = dumps (entry (idx + i) problem)) as ->
      by (by injection Hi).
    apply dumps_control_free.
Qed.

(** What was escaped for one character reads back as that character,
    whatever follows. *)
Lemma read_escaped_escape_char c rest :
  read_escaped (escape_char c +:+ rest) = Some (c, rest).
Proof. by destruct c as [[] [] [] [] [] [] [] []]. Qed.

(** An escaped text ends at the first bare quote: two escaped texts, each
    followed by a quote, are equal only if the texts and what follows
    are. *)
Lemma escape_delimited s1 s2 t1 t2 :
  escape s1 +:+ String quote t1 = escape s2 +:+ String quote t2 →
  s1 = s2 ∧ t1 = t2.
Proof.
  revert s2. induction s1 as [|c1 s1 IH]; intros [|c2 s2] Heq.
  - by simplify_eq.
  - apply (f_equal read_escaped) in Heq. cbn [escape] in Heq.
    rewrite app_assoc_str, read_escaped_escape_char in Heq. done.
  - apply (f_equal read_escaped) in Heq. cbn [escape] in Heq.
    rewrite app_assoc_str, read_escaped_escape_char in Heq. done.
  - apply (f_equal read_escaped) in Heq. cbn [escape] in Heq.
    rewrite !app_assoc_str, !read_escaped_escape_char in Heq.
    simplify_eq. by destruct (IH _ H0) as [-> ->].
Qed.

Lemma encode_string_delimited s1 s2 t1 t2 :
  encode_string s1 +:+ t1 = encode_string s2 +:+ t2 → s1 = s2 ∧ t1 = t2.
Proof.
  unfold encode_string. rewrite !app_cons, !app_assoc_str, !app_cons.
  intros Heq. injection Heq as Heq. by apply escape_delimited in Heq.
Qed.

(** The dump of an entry can be read back: it fixes the number and the
    problem text. *)
Lemma entry_dump_inj i1 i2 (problem1 problem2 : string) :
  dumps (entry i1 problem1) = dumps (entry i2 problem2) →
  i1 = i2 ∧ problem1 = problem2.
Proof.
  intros Heq. unfold entry in Heq. cbn [dumps map String.concat] in Heq.
  rewrite !app_assoc_str in Heq.
  repeat apply String.app_inj in Heq.
  apply encode_string_delimited in Heq as [Hid Heq].
  repeat apply String.app_inj in Heq.
  apply encode_string_delimited in Heq as [-> _].
  apply String.app_inj in Hid. by apply (inj pretty) in Hid.
Qed.

(** X5. A record identifies its request: two entries have the same dump
    only if they have the same number and the same problem text, and the
    same [custom_id] only if they have the same number. *)
Theorem record_identifies_request i1 i2 (problem1 problem2 : string) :
  (dumps (entry i1 problem1) = dumps (entry i2 problem2)
   ↔ i1 = i2 ∧ problem1 = problem2)
  ∧ (member "custom_id" (entry i1 problem1)
     = member "custom_id" (entry i2 problem2)
     ↔ i1 = i2).
Proof.
  split; split.
  - apply entry_dump_inj.
  - by intros [-> ->].
  - cbn. intros Heq. injection Heq as Heq.
    apply String.app_inj in Heq. by apply (inj pretty) in Heq.
  - by intros ->.
Qed.

(** X6. Nothing of the problem list is lost in the file: two lists with
    the same serialization are the same list. *)
Theorem jsonl_from_inj idx (problems1 problems2 : list string) :
  jsonl_from idx problems1 = jsonl_from idx problems2 →
  problems1 = problems2.
Proof.
  intros Heq. apply (f_equal jsonl_lines) in Heq.
  rewrite !jsonl_lines_jsonl_from in Heq.
  apply list_eq. intros i.
  apply (f_equal (λ l, l !! i)) in Heq. rewrite !list_lookup_imap in Heq.
  destruct (problems1 !! i) as [p1|], (problems2 !! i) as [p2|];
    try done.
  apply (inj Some), entry_dump_inj in Heq as [_ ->]. done.
Qed.

Lemma jsonl_from_inj_witness : ["a"; "b"] = ["a"; "b"].
Proof.
  apply (jsonl_from_inj 1 ["a"; "b"] ["a"; "b"]). reflexivity.
Defined.

Lemma escape_char_plain c :
  (32 ≤ N_of_ascii c)%N → c ≠ quote → c ≠ backslash →
  escape_char c = String c "".
Proof.
  intros Hc Hq Hb. unfold escape_char.
  assert (N_of_ascii c ≠ 34%N) as Hq'.
  { intros Heq. apply Hq. by rewrite <-(ascii_N_embedding c), Heq. }
  assert (N_of_ascii c ≠ 92%N) as Hb'.
  { intros Heq. apply Hb. by rewrite <-(ascii_N_embedding c), Heq. }
  repeat match goal with
         | |- context [(?n =? ?m)%N] =>
             destruct (N.eqb_spec n m); [lia|]
         | |- context [(?n <? ?m)%N] =>
             destruct (N.ltb_spec n m); [lia|]
         end.
  done.
Qed.

(** X17. With [ensure_ascii=False] a text without quote, backslash and
    control characters is written as it is between two quotes, its bytes
    outside ASCII included. *)
Theorem plain_text_kept s :
  plain s = true →
  encode_string s = String quote (s +:+ String quote "").
Proof.
  intros Hs. unfold encode_string. f_equal. f_equal.
  induction s as [|c s IH]; [done|]. cbn [plain] in Hs.
  apply andb_true_iff in Hs as [Hs Hrest].
  apply andb_true_iff in Hs as [Hs Hb%bool_decide_eq_true].
  apply andb_true_iff in Hs as [Hc%bool_decide_eq_true Hq%bool_decide_eq_true].
  cbn [escape]. by rewrite escape_char_plain, IH.
Qed.

Lemma plain_text_kept_witness :
  encode_string "Qu'est-ce que l'été ?"
  = String quote ("Qu'est-ce que l'été ?" +:+ String quote "").
Proof. apply plain_text_kept. reflexivity. Defined.

End records_more.

(** ** Encoding the records *)

Section encoding_facts.
Import SendBatch.
Implicit Types (s t : string) (c : ascii) (f : bool).

Lemma surrogate_free_ascii_cons f c s :
  (N_of_ascii c < 128)%N →
  surrogate_free f (String c s) = surrogate_free false s.
Proof.
  intros Hc. cbn [surrogate_free].
  rewrite (bool_decide_eq_false_2 (160 ≤ _ ≤ 191)%N) by lia.
  rewrite (bool_decide_eq_false_2 (_ = 237%N)) by lia.
  by rewrite andb_false_r.
Qed.

Lemma surrogate_free_ascii_app s t :
  ascii_only s = true →
  surrogate_free false (s +:+ t) = surrogate_free false t.
Proof.
  induction s as [|c s IH]; [done|]. cbn [ascii_only].
  intros [Hc%bool_decide_eq_true Hs]%andb_true_iff.
  rewrite app_cons, surrogate_free_ascii_cons by done. by apply IH.
Qed.

(** What replaces a character is ASCII text, or the character itself when
    it is a byte from 0x80 on. *)
Lemma escape_char_cases c :
  ((N_of_ascii c <? 128)%N = true
   ∧ ascii_only (escape_char c) = true)
  ∨ ((N_of_ascii c <? 128)%N = false ∧ escape_char c = String c "").
Proof.
  destruct c as [[] [] [] [] [] [] [] []];
    first [by left | by right].
Qed.

(** Escaping neither makes nor removes a lone surrogate. *)
Lemma surrogate_free_escape f s c t :
  (N_of_ascii c < 128)%N →
  surrogate_free f (escape s +:+ String c t)
  = surrogate_free f s && surrogate_free false t.
Proof.
  intros Hc. revert f. induction s as [|d s IH]; intros f.
  - rewrite app_empty_l. by rewrite surrogate_free_ascii_cons.
  - cbn [escape]. rewrite app_assoc_str.
    destruct (escape_char_cases d) as [[Hd Hesc]|[Hd ->]].
    + apply N.ltb_lt in Hd.
      rewrite (surrogate_free_ascii_cons f d) by done.
      destruct (escape_char d) as [|d' rest] eqn:Hed.
      * by destruct d as [[] [] [] [] [] [] [] []].
      * cbn [ascii_only] in Hesc.
        apply andb_true_iff in Hesc as [Hd'%bool_decide_eq_true Hrest].
        rewrite app_cons, surrogate_free_ascii_cons by done.
        rewrite surrogate_free_ascii_app by done. apply IH.
    + rewrite app_cons, app_empty_l. cbn [surrogate_free].
      by rewrite IH, andb_assoc.
Qed.

(** The decimal text of a number is made of digits. *)
Lemma pretty_N_go_digits (P : string → Prop) :
  (∀ d s, P s → P (String (pretty_N_char d) s)) →
  ∀ x s, P s → P (pretty_N_go x s).
Proof.
  intros Hdigit x. induction (N.lt_wf_0 x) as [x _ IH]. intros s Hs.
  destruct (decide (x = 0)%N) as [->|Hx]; [by rewrite pretty_N_go_0|].
  rewrite pretty_N_go_step by lia.
  apply IH; [apply N.div_lt; lia | by apply Hdigit].
Qed.

Lemma pretty_nat_digits (P : string → Prop) (n : nat) :
  P "" →
  (∀ d s, P s → P (String (pretty_N_char d) s)) →
  P (pretty n).
Proof.
  intros Hnil Hdigit. unfold pretty, pretty_nat, pretty, pretty_N.
  destruct (decide (N.of_nat n = 0)%N).
  - apply (Hdigit 0%N). exact Hnil.
  - by apply pretty_N_go_digits.
Qed.

Lemma ascii_only_pretty (n : nat) : ascii_only (pretty n) = true.
Proof.
  apply pretty_nat_digits; [done|]. intros d s Hs. cbn [ascii_only].
  rewrite Hs, andb_true_r. unfold pretty_N_char. by repeat case_match.
Qed.

Lemma plain_pretty (n : nat) : plain (pretty n) = true.
Proof.
  apply pretty_nat_digits; [done|]. intros d s Hs. cbn [plain].
  rewrite Hs, andb_true_r. unfold pretty_N_char. by repeat case_match.
Qed.

Lemma plain_app s t : plain (s +:+ t) = plain s && plain t.
Proof.
  induction s as [|c s IH]; [done|].
  rewrite app_cons. cbn [plain]. by rewrite IH, !andb_assoc.
Qed.

(** A text without quote, backslash and control characters is left as it
    is. *)
Lemma escape_plain s : plain s = true → escape s = s.
Proof.
  induction s as [|c s IH]; [done|]. cbn [plain]. intros Hs.
  apply andb_true_iff in Hs as [Hs Hrest].
  apply andb_true_iff in Hs as [Hs Hb%bool_decide_eq_true].
  apply andb_true_iff in Hs as [Hc%bool_decide_eq_true Hq%bool_decide_eq_true].
  cbn [escape]. by rewrite escape_char_plain, IH.
Qed.

Lemma escape_app s t : escape (s +:+ t) = escape s +:+ escape t.
Proof.
  induction s as [|c s IH]; [done|].
  rewrite app_cons. cbn [escape]. by rewrite IH, app_assoc_str.
Qed.

(** Brings a text made with [+:+] to one chain of characters in which
    only the texts that are not known stay as they are. *)
Ltac flatten_text :=
  repeat progress rewrite ?app_assoc_str, ?app_cons, ?app_empty_l.

(** The dump of an entry is the line written out in [record_text]. *)
Lemma dumps_entry_text idx (problem : string) :
  dumps (entry idx problem) = record_text idx problem.
Proof.
  unfold entry, record_text, quoted, MODEL, EFFORT.
  cbn [dumps map String.concat]. unfold encode_string.
  rewrite escape_app, (escape_plain (pretty idx)) by apply plain_pretty.
  repeat match goal with
         | |- context [escape ?literal] =>
             rewrite (escape_plain literal) by reflexivity
         end.
  flatten_text. reflexivity.
Qed.

(** A record can be encoded exactly when its problem text can. *)
Lemma record_encodable idx (problem : string) :
  utf8_encodable (dumps (entry idx problem) +:+ String newline "")
  = utf8_encodable problem.
Proof.
  rewrite dumps_entry_text. unfold utf8_encodable, record_text, quoted.
  flatten_text.
  repeat first
    [ rewrite surrogate_free_ascii_cons by done
    | rewrite surrogate_free_ascii_app by apply ascii_only_pretty
    | rewrite surrogate_free_escape by done ].
  apply andb_true_r.
Qed.

End encoding_facts.

Section monad_facts.
Context {St T U : Type}.
Implicit Types (c : M St T) (k : T → M St U) (st : St).

Lemma bind_Return c k st v st' :
  c st = (Return v, st') → bind c k st = k v st'.
Proof. intros Hc. unfold bind. by rewrite Hc. Qed.

Lemma bind_Raise c k st e st' :
  c st = (Raise e, st') → bind c k st = (Raise e, st').
Proof. intros Hc. unfold bind. by rewrite Hc. Qed.

End monad_facts.

Section send_batch_facts.
Import SendBatch.
Variable E : environment.
Implicit Types (w : world) (problems : list string) (path : Path).

Lemma app_empty_r (s : string) : s +:+ "" = s.
Proof. induction s as [|c s IH]; [done|]. by rewrite app_cons, IH. Qed.

Lemma forallb_all_encodable problems :
  forallb utf8_encodable problems = true ↔ all_encodable problems.
Proof.
  unfold all_encodable. induction problems as [|problem rest IH]; simpl.
  - split; [constructor | done].
  - rewrite andb_true_iff, Forall_cons, IH. done.
Qed.

Lemma encodable_prefix_all problems :
  all_encodable problems → encodable_prefix problems = problems.
Proof.
  induction 1 as [|problem rest Hp _ IH]; [done|]. simpl.
  by rewrite Hp, IH.
Qed.

(** The loop appends the entries to the file that is open, up to the
    first one that cannot be encoded, where [fp.write] raises. *)
Lemma write_entries_result path idx problems w current :
  files w !! path_str path = Some current →
  write_entries path idx problems w
  = (if forallb utf8_encodable problems then Return tt
     else Raise (UnicodeEncodeError "surrogates not allowed"),
     mkWorld (stdout w)
             (<[path_str path :=
                  current +:+ jsonl_from idx (encodable_prefix problems)]>
                (files w))
             (requests w)).
Proof.
  revert idx w current.
  induction problems as [|problem rest IH]; intros idx w current Hcur.
  - destruct w as [out fs reqs]. simpl in *. unfold ret.
    by rewrite app_empty_r, insert_id.
  - change (write_entries path idx (problem :: rest))
      with (bind (fp_write path (dumps (entry idx problem)
                                 +:+ String newline ""))
                 (λ _, write_entries path (S idx) rest)).
    unfold bind, fp_write. rewrite record_encodable.
    cbn [forallb encodable_prefix].
    destruct (utf8_encodable problem).
    + erewrite IH by (cbn [files]; apply lookup_insert_eq).
      cbn [andb stdout files requests]. rewrite Hcur, insert_insert_eq.
      cbn [default from_option].
      change (jsonl_from idx (problem :: encodable_prefix rest))
        with ((dumps (entry idx problem) +:+ String newline "")
              +:+ jsonl_from (S idx) (encodable_prefix rest)).
      by rewrite !app_assoc_str.
    + destruct w as [out fs reqs]. cbn [andb stdout files requests] in *.
      change (jsonl_from idx []) with "".
      by rewrite app_empty_r, insert_id.
Qed.

(** A file that can be opened is replaced by the serialized problems, up
    to the first that cannot be encoded, whatever it held before. *)
Lemma write_jsonl_result problems path w :
  can_open_w E (path_str path) = true →
  write_jsonl E problems path w
  = (if forallb utf8_encodable problems then Return tt
     else Raise (UnicodeEncodeError "surrogates not allowed"),
     mkWorld (stdout w)
             (<[path_str path := jsonl_from 1 (encodable_prefix problems)]>
                (files w))
             (requests w)).
Proof.
  intros Hopen. unfold write_jsonl, bind, open_w. rewrite Hopen.
  erewrite write_entries_result by (cbn [files]; apply lookup_insert_eq).
  cbn [stdout files requests]. rewrite insert_insert_eq, app_empty_l.
  by destruct (forallb utf8_encodable problems).
Qed.

Lemma write_jsonl_run problems path w :
  can_open_w E (path_str path) = true →
  all_encodable problems →
  write_jsonl E problems path w
  = (Return tt,
     mkWorld (stdout w)
             (<[path_str path := jsonl_from 1 problems]> (files w))
             (requests w)).
Proof.
  intros Hopen Henc. rewrite write_jsonl_result by done.
  rewrite encodable_prefix_all by done.
  by rewrite (proj2 (forallb_all_encodable problems) Henc).
Qed.

Lemma write_jsonl_fails problems path w :
  can_open_w E (path_str path) = false →
  write_jsonl E problems path w
  = (Raise (OSError "cannot open for writing"), w).
Proof. intros Hopen. unfold write_jsonl, bind, open_w. by rewrite Hopen. Qed.

(** C8, as the code has it.  For every list of problems that can be
    encoded in UTF-8, written to a file that can be opened, the file holds
    exactly one record per problem, and the record of the i-th problem
    (counting from 1) is the one-line JSON text of [record_text]: the
    identifier [request-i], the method [POST], the path
    [/v1/chat/completions] and a body with the model name, one user
    message whose content is the problem, and the reasoning effort.  The
    content is the escaped problem text: the text itself when it is
    plain, and in every case a text that no other problem gives. *)
Theorem write_jsonl_one_record_per_problem problems path w :
  can_open_w E (path_str path) = true →
  all_encodable problems →
  ∃ content,
    write_jsonl E problems path w
    = (Return tt,
       mkWorld (stdout w) (<[path_str path := content]> (files w))
               (requests w))
    ∧ length (jsonl_lines content) = length problems
    ∧ ∀ i problem,
        problems !! i = Some problem →
        ∃ record body,
          jsonl_lines content !! i = Some (dumps record)
          ∧ dumps record = record_text (S i) problem
          ∧ (plain problem = true → escape problem = problem)
          ∧ (∀ other, escape other = escape problem → other = problem)
          ∧ record = entry (S i) problem
          ∧ member "custom_id" record
            = Some (JStr ("request-" +:+ pretty (S i)))
          ∧ member "method" record = Some (JStr "POST")
          ∧ member "url" record = Some (JStr "/v1/chat/completions")
          ∧ member "body" record = Some body
          ∧ member "model" body = Some (JStr "o4-mini")
          ∧ member "messages" body
            = Some (JArr [JObj [("role", JStr "user");
                                ("content", JStr problem)]])
          ∧ member "reasoning_effort" body = Some (JStr "high").
Proof.
  intros Hopen Henc. exists (jsonl_from 1 problems).
  split_and!; [by apply write_jsonl_run | |].
  - by rewrite jsonl_lines_jsonl_from, length_imap.
  - intros i problem Hi.
    eexists (entry (S i) problem), _.
    rewrite jsonl_lines_jsonl_from, list_lookup_imap, Hi.
    split_and!; try reflexivity.
    + apply dumps_entry_text.
    + apply escape_plain.
    + intros other Hother.
      apply (f_equal (λ text, text +:+ String quote "")) in Hother.
      by apply escape_delimited in Hother as [-> _].
Qed.

(** A successful submission: both calls are made, in this order, and the
    five lines are printed; no file is touched. *)
Lemma create_and_send_batch_ok path w content file_id batch_id :
  files w !! path_str path = Some content →
  api_answers E content path = Return (file_id, batch_id) →
  create_and_send_batch E path w
  = (Return tt,
     mkWorld (stdout w ++ [uploading path;
                           "File uploaded – id: " +:+ file_id;
                           "Creating batch request…";
                           "Batch request submitted.";
                           "Batch id: " +:+ batch_id])
             (files w)
             (requests w ++ [upload_call content; batch_call file_id path])).
Proof.
  intros Hread Hapi. unfold api_answers, obind in Hapi.
  unfold create_and_send_batch, bind, lift, read_rb, client_files_create,
    client_batches_create, print.
  destruct (OpenAI E (api_key E)) as [[]|]; [|done]. simpl. rewrite Hread.
  destruct (files_create E content "batch") as [fid|]; [|done]. simpl.
  destruct (batches_create E fid _ _ _) as [bid|]; [|done]. simpl.
  injection Hapi as <- <-. by rewrite <-!(assoc_L (++)).
Qed.

(** A failed submission: the exception of the client comes out, no file
    is touched, and the calls made are an upload of the file's content,
    possibly followed by the batch request for it. *)
Lemma create_and_send_batch_raises path w content e :
  files w !! path_str path = Some content →
  api_answers E content path = Raise e →
  ∃ out reqs,
    create_and_send_batch E path w
    = (Raise e, mkWorld (stdout w ++ out) (files w) (requests w ++ reqs))
    ∧ (reqs = []
       ∨ reqs = [upload_call content]
       ∨ ∃ file_id, reqs = [upload_call content; batch_call file_id path]).
Proof.
  intros Hread Hapi. unfold api_answers, obind in Hapi.
  unfold create_and_send_batch, bind, lift, read_rb, client_files_create,
    client_batches_create, print.
  destruct (OpenAI E (api_key E)) as [[]|e1].
  2:{ injection Hapi as ->. exists [], []. rewrite !app_nil_r.
      destruct w; simpl; auto. }
  simpl. rewrite Hread.
  destruct (files_create E content "batch") as [fid|e2].
  2:{ injection Hapi as ->. exists [uploading path], [upload_call content].
      simpl; auto. }
  simpl. destruct (batches_create E fid _ _ _) as [bid|e3]; [done|].
  injection Hapi as ->.
  exists [uploading path; "File uploaded – id: " +:+ fid;
          "Creating batch request…"],
         [upload_call content; batch_call fid path].
  simpl. rewrite <-!(assoc_L (++)). eauto.
Qed.

(** *** The runs of [main] *)

Lemma main_import_error w msg :
  import_problems E = Raise (ImportError msg) →
  main E w
  = (Raise (SystemExit 1),
     mkWorld (stdout w ++ ["Could not import `data.problem_list.problems`: "
                           +:+ msg])
             (files w) (requests w)).
Proof.
  intros Himp. unfold main, bind, load_problems, try_except, lift.
  by rewrite Himp.
Qed.

Lemma main_import_raises w e :
  import_problems E = Raise e →
  is_ImportError e = false →
  main E w = (Raise e, w).
Proof.
  intros Himp He. unfold main, bind, load_problems, try_except, lift.
  by rewrite Himp, He.
Qed.

Lemma main_not_a_list w :
  import_problems E = Return PyOther →
  main E w
  = (Raise (SystemExit 1),
     mkWorld (stdout w
              ++ ["`data.problem_list.problems` should be a list of strings."])
             (files w) (requests w)).
Proof.
  intros Himp. unfold main, bind, load_problems, try_except, lift.
  by rewrite Himp.
Qed.

Lemma main_empty w :
  import_problems E = Return (PyList []) →
  main E w
  = (Return 1%Z,
     mkWorld (stdout w ++ ["Problem list is empty – nothing to do."])
             (files w) (requests w)).
Proof.
  intros Himp. unfold main, bind, load_problems, try_except, lift.
  by rewrite Himp.
Qed.

Lemma load_problems_list w problems :
  import_problems E = Return (PyList problems) →
  load_problems E w = (Return problems, w).
Proof.
  intros Himp. unfold load_problems, bind, try_except, lift.
  by rewrite Himp.
Qed.

Lemma main_write_fails w problems :
  import_problems E = Return (PyList problems) →
  problems ≠ [] →
  can_open_w E (path_str JSONL_PATH) = false →
  main E w
  = (Raise (OSError "cannot open for writing"),
     mkWorld (stdout w ++ [loaded_line problems]) (files w) (requests w)).
Proof.
  intros Himp Hne Hopen. unfold main.
  erewrite bind_Return by (by apply load_problems_list).
  rewrite bool_decide_eq_false_2 by done.
  erewrite bind_Return by reflexivity.
  erewrite bind_Raise by (by apply write_jsonl_fails).
  reflexivity.
Qed.

(** A problem text that cannot be encoded ends [main] in [write_jsonl],
    outside the [try]: the file holds the records before it. *)
Lemma main_encode_fails w problems :
  import_problems E = Return (PyList problems) →
  problems ≠ [] →
  can_open_w E (path_str JSONL_PATH) = true →
  forallb utf8_encodable problems = false →
  main E w
  = (Raise (UnicodeEncodeError "surrogates not allowed"),
     mkWorld (stdout w ++ [loaded_line problems])
             (<[path_str JSONL_PATH :=
                  jsonl_from 1 (encodable_prefix problems)]> (files w))
             (requests w)).
Proof.
  intros Himp Hne Hopen Henc. unfold main.
  erewrite bind_Return by (by apply load_problems_list).
  rewrite bool_decide_eq_false_2 by done.
  erewrite bind_Return by reflexivity.
  erewrite bind_Raise; [reflexivity|].
  rewrite write_jsonl_result by done. by rewrite Henc.
Qed.

(** Once the file is written, the result of [main] is decided by the
    upload alone. *)
Lemma main_written w problems :
  import_problems E = Return (PyList problems) →
  problems ≠ [] →
  can_open_w E (path_str JSONL_PATH) = true →
  all_encodable problems →
  main E w
  = match create_and_send_batch E JSONL_PATH (written problems w) with
    | (Return _, w') => (Return 0%Z, w')
    | (Raise e, w') =>
        if is_Exception e
        then (Return 1%Z,
              mkWorld (stdout w' ++ [error_line e]) (files w') (requests w'))
        else (Raise e, w')
    end.
Proof.
  intros Himp Hne Hopen Henc. unfold main.
  erewrite bind_Return by (by apply load_problems_list).
  rewrite bool_decide_eq_false_2 by done.
  erewrite bind_Return by reflexivity.
  erewrite bind_Return by (by apply write_jsonl_run).
  erewrite bind_Return by reflexivity.
  unfold try_except, bind, print at 1. cbn [stdout files requests].
  rewrite <-(assoc_L (++)).
  change (mkWorld _ _ _) with (written problems w) at 1.
  destruct (create_and_send_batch E JSONL_PATH (written problems w))
    as [[[]|e] w']; [done|].
  by destruct (is_Exception e).
Qed.

Lemma written_lookup problems w :
  files (written problems w) !! path_str JSONL_PATH
  = Some (jsonl_from 1 problems).
Proof. apply lookup_insert_eq. Qed.

Lemma main_submitted w problems file_id batch_id :
  import_problems E = Return (PyList problems) →
  problems ≠ [] →
  can_open_w E (path_str JSONL_PATH) = true →
  all_encodable problems →
  api_answers E (jsonl_from 1 problems) JSONL_PATH
  = Return (file_id, batch_id) →
  main E w
  = (Return 0%Z,
     mkWorld (stdout (written problems w)
              ++ [uploading JSONL_PATH;
                  "File uploaded – id: " +:+ file_id;
                  "Creating batch request…";
                  "Batch request submitted.";
                  "Batch id: " +:+ batch_id])
             (files (written problems w))
             (requests w ++ [upload_call (jsonl_from 1 problems);
                             batch_call file_id JSONL_PATH])).
Proof.
  intros Himp Hne Hopen Henc Hapi.
  rewrite (main_written w problems) by done.
  by erewrite create_and_send_batch_ok
    by (by first [apply written_lookup | exact Hapi]).
Qed.

Lemma main_upload_fails w problems e :
  import_problems E = Return (PyList problems) →
  problems ≠ [] →
  can_open_w E (path_str JSONL_PATH) = true →
  all_encodable problems →
  api_answers E (jsonl_from 1 problems) JSONL_PATH = Raise e →
  ∃ out reqs,
    main E w
    = (if is_Exception e
       then (Return 1%Z,
             mkWorld (stdout (written problems w) ++ out ++ [error_line e])
                     (files (written problems w)) (requests w ++ reqs))
       else (Raise e,
             mkWorld (stdout (written problems w) ++ out)
                     (files (written problems w)) (requests w ++ reqs)))
    ∧ (reqs = []
       ∨ reqs = [upload_call (jsonl_from 1 problems)]
       ∨ ∃ file_id, reqs = [upload_call (jsonl_from 1 problems);
                            batch_call file_id JSONL_PATH]).
Proof.
  intros Himp Hne Hopen Henc Hapi.
  rewrite (main_written w problems) by done.
  destruct (create_and_send_batch_raises JSONL_PATH (written problems w)
              _ e (written_lookup problems w) Hapi)
    as (out & reqs & -> & Hreqs).
  exists out, reqs. split; [|done].
  destruct (is_Exception e); [|done]. cbn [stdout files requests].
  by rewrite <-(assoc_L (++)).
Qed.

(** Every way [main] has to return a value. *)
Lemma main_returns w code w' :
  main E w = (Return code, w') →
  (import_problems E = Return (PyList []) ∧ code = 1%Z)
  ∨ ∃ problems,
      import_problems E = Return (PyList problems)
      ∧ problems ≠ []
      ∧ can_open_w E (path_str JSONL_PATH) = true
      ∧ all_encodable problems
      ∧ ((∃ ids, api_answers E (jsonl_from 1 problems) JSONL_PATH
                 = Return ids ∧ code = 0%Z)
         ∨ (∃ e, api_answers E (jsonl_from 1 problems) JSONL_PATH = Raise e
                 ∧ is_Exception e = true ∧ code = 1%Z)).
Proof.
  intros Hmain.
  destruct (import_problems E) as [[problems|]|e] eqn:Himp.
  - destruct (decide (problems = [])) as [->|Hne].
    { rewrite main_empty in Hmain by done. left. by simplify_eq. }
    right. exists problems.
    destruct (can_open_w E (path_str JSONL_PATH)) eqn:Hopen.
    2:{ by rewrite (main_write_fails w problems) in Hmain. }
    destruct (forallb utf8_encodable problems) eqn:Henc.
    2:{ by rewrite (main_encode_fails w problems) in Hmain. }
    apply forallb_all_encodable in Henc.
    split_and!; [done..|].
    destruct (api_answers E (jsonl_from 1 problems) JSONL_PATH)
      as [[file_id batch_id]|e] eqn:Hapi.
    + rewrite (main_submitted w problems file_id batch_id) in Hmain by done.
      left. exists (file_id, batch_id). by simplify_eq.
    + destruct (main_upload_fails w problems e) as (out & reqs & Hrun & _);
        [done..|].
      rewrite Hrun in Hmain. right. exists e.
      destruct (is_Exception e); by simplify_eq.
  - by rewrite main_not_a_list in Hmain.
  - destruct (is_ImportError e) eqn:He.
    + destruct e; try done. by rewrite (main_import_error w msg) in Hmain.
    + by rewrite (main_import_raises w e) in Hmain.
Qed.

(** C9. A missing, malformed or empty problem list is reported and ends
    the run at once with status 1; once the problems are written, which
    needs a file that opens and texts that can be encoded, an exception
    raised while talking to the API is caught, logged, and turned into
    the return value 1; and [main] returns 0 exactly when the batch has
    been submitted, 1 being its only other return value. *)
Theorem main_status w :
  (∀ msg,
     import_problems E = Raise (ImportError msg) →
     script E w
     = (Exited 1,
        mkWorld (stdout w
                 ++ ["Could not import `data.problem_list.problems`: "
                     +:+ msg])
                (files w) (requests w)))
  ∧ (import_problems E = Return PyOther →
     script E w
     = (Exited 1,
        mkWorld (stdout w
                 ++ ["`data.problem_list.problems` should be a list of strings."])
                (files w) (requests w)))
  ∧ (import_problems E = Return (PyList []) →
     main E w
     = (Return 1%Z,
        mkWorld (stdout w ++ ["Problem list is empty – nothing to do."])
                (files w) (requests w))
     ∧ (script E w).1 = Exited 1)
  ∧ (∀ problems e,
       import_problems E = Return (PyList problems) →
       problems ≠ [] →
       can_open_w E (path_str JSONL_PATH) = true →
       all_encodable problems →
       api_answers E (jsonl_from 1 problems) JSONL_PATH = Raise e →
       is_Exception e = true →
       ∃ w', main E w = (Return 1%Z, w')
             ∧ last (stdout w') = Some (error_line e)
             ∧ (script E w).1 = Exited 1)
  ∧ ((main E w).1 = Return 0%Z ↔
     ∃ problems ids,
       import_problems E = Return (PyList problems)
       ∧ problems ≠ []
       ∧ can_open_w E (path_str JSONL_PATH) = true
       ∧ all_encodable problems
       ∧ api_answers E (jsonl_from 1 problems) JSONL_PATH = Return ids)
  ∧ (∀ w', main E w = (Return 0%Z, w') →
       ∃ problems file_id,
         requests w' = requests w ++ [upload_call (jsonl_from 1 problems);
                                      batch_call file_id JSONL_PATH]
         ∧ "Batch request submitted." ∈ stdout w')
  ∧ (∀ code, (main E w).1 = Return code → code = 0%Z ∨ code = 1%Z).
Proof.
  split_and!.
  - intros msg Himp. unfold script. by rewrite (main_import_error w msg).
  - intros Himp. unfold script. by rewrite main_not_a_list.
  - intros Himp. unfold script. by rewrite main_empty.
  - intros problems e Himp Hne Hopen Henc Hapi He.
    destruct (main_upload_fails w problems e) as (out & reqs & Hrun & _);
      [done..|].
    rewrite He in Hrun. eexists. unfold script. rewrite Hrun.
    split_and!; [done | | done]. cbn [stdout].
    by rewrite !(assoc_L (++)), last_snoc.
  - split.
    + destruct (main E w) as [r w'] eqn:Hmain. simpl. intros ->.
      apply main_returns in Hmain as [[_ ?]|(ps & ? & ? & ? & ? & Hapi)];
        [done|].
      destruct Hapi as [(ids & ? & _)|(e & _ & _ & ?)]; [|done].
      by exists ps, ids.
    + intros (ps & [file_id batch_id] & Himp & Hne & Hopen & Henc & Hapi).
      by rewrite (main_submitted w ps file_id batch_id).
  - intros w' Hmain.
    destruct (main_returns w _ w' Hmain)
      as [[_ ?]|(ps & ? & ? & ? & ? & Hapi)]; [done|].
    destruct Hapi as [([file_id batch_id] & Hapi & _)|(e & _ & _ & ?)];
      [|done].
    rewrite (main_submitted w ps file_id batch_id) in Hmain by done.
    exists ps, file_id. simplify_eq. cbn [stdout requests].
    split; [done|]. set_solver.
  - intros code. destruct (main E w) as [r w'] eqn:Hmain. simpl. intros ->.
    apply main_returns in Hmain as [[_ ?]|(ps & _ & _ & _ & _ & Hapi)];
      [by right|].
    destruct Hapi as [(? & _ & ?)|(? & _ & _ & ?)]; auto.
Qed.

(** C10. The JSONL file is written before the upload is tried: when the
    problems could be written (the file opens, the texts can be encoded),
    the API fails and [main] returns 1, the file on disk is the freshly
    serialized problem list, whatever it held before, and an upload that
    was attempted carried that content. *)
Theorem jsonl_kept_when_upload_fails w problems e :
  import_problems E = Return (PyList problems) →
  problems ≠ [] →
  can_open_w E (path_str JSONL_PATH) = true →
  all_encodable problems →
  api_answers E (jsonl_from 1 problems) JSONL_PATH = Raise e →
  is_Exception e = true →
  ∃ w',
    main E w = (Return 1%Z, w')
    ∧ files w' = <[path_str JSONL_PATH := jsonl_from 1 problems]> (files w)
    ∧ files w' !! path_str JSONL_PATH = Some (jsonl_from 1 problems)
    ∧ ∀ content purpose,
        FilesCreate content purpose ∈ requests w' →
        FilesCreate content purpose ∈ requests w
        ∨ content = jsonl_from 1 problems.
Proof.
  intros Himp Hne Hopen Henc Hapi He.
  destruct (main_upload_fails w problems e) as (out & reqs & Hrun & Hreqs);
    [done..|].
  rewrite He in Hrun. eexists. split; [exact Hrun|].
  cbn [files requests written]. split_and!; [done | apply lookup_insert_eq |].
  intros content purpose [Hin|Hin]%elem_of_app; [by left|]. right.
  unfold upload_call, batch_call in Hreqs.
  destruct Hreqs as [->|[->|[file_id ->]]]; set_solver.
Qed.

End send_batch_facts.

(** ** The script on the two sample runs *)

Section send_batch_runs.
Import SendBatch.

Lemma write_jsonl_one_record_per_problem_witness :
  ∃ content,
    write_jsonl env_api_up ["What is 1+1?"; "Name a prime."] JSONL_PATH
      stale_world
    = (Return tt,
       mkWorld [] (<[path_str JSONL_PATH := content]> (files stale_world)) [])
    ∧ length (jsonl_lines content) = 2
    ∧ ∀ i problem,
        ["What is 1+1?"; "Name a prime."] !! i = Some problem →
        ∃ record body,
          jsonl_lines content !! i = Some (dumps record)
          ∧ dumps record = record_text (S i) problem
          ∧ (plain problem = true → escape problem = problem)
          ∧ (∀ other, escape other = escape problem → other = problem)
          ∧ record = entry (S i) problem
          ∧ member "custom_id" record
            = Some (JStr ("request-" +:+ pretty (S i)))
          ∧ member "method" record = Some (JStr "POST")
          ∧ member "url" record = Some (JStr "/v1/chat/completions")
          ∧ member "body" record = Some body
          ∧ member "model" body = Some (JStr "o4-mini")
          ∧ member "messages" body
            = Some (JArr [JObj [("role", JStr "user");
                                ("content", JStr problem)]])
          ∧ member "reasoning_effort" body = Some (JStr "high").
Proof.
  apply (write_jsonl_one_record_per_problem env_api_up
           ["What is 1+1?"; "Name a prime."] JSONL_PATH stale_world).
  - reflexivity.
  - repeat constructor.
Defined.

(** The claim of C8 read for every list of problem strings fails on a
    list with a text that cannot be encoded: [write_jsonl] raises at the
    second of the three problems, and the file holds one record. *)
Lemma write_jsonl_counterexample :
  (write_jsonl env_surrogate
     ["What is 1+1?"; lone_surrogate; "Name a prime."] JSONL_PATH
     stale_world).1
  = Raise (UnicodeEncodeError "surrogates not allowed")
  ∧ jsonl_lines
      <$> files (write_jsonl env_surrogate
                   ["What is 1+1?"; lone_surrogate; "Name a prime."]
                   JSONL_PATH stale_world).2
          !! path_str JSONL_PATH
    = Some [record_text 1 "What is 1+1?"].
Proof. split; vm_compute; reflexivity. Qed.

Lemma main_status_witness :
  ∃ w',
    main env_api_down stale_world = (Return 1%Z, w')
    ∧ last (stdout w') = Some (error_line (OpenAIError "service unavailable"))
    ∧ (script env_api_down stale_world).1 = Exited 1.
Proof.
  destruct (main_status env_api_down stale_world) as (_ & _ & _ & Hfail & _).
  apply (Hfail ["What is 1+1?"; "Name a prime."]).
  - reflexivity.
  - discriminate.
  - reflexivity.
  - repeat constructor.
  - reflexivity.
  - reflexivity.
Defined.

Lemma jsonl_kept_when_upload_fails_witness :
  ∃ w',
    main env_api_down stale_world = (Return 1%Z, w')
    ∧ files w'
      = <[path_str JSONL_PATH :=
            jsonl_from 1 ["What is 1+1?"; "Name a prime."]]>
          (files stale_world)
    ∧ files w' !! path_str JSONL_PATH
      = Some (jsonl_from 1 ["What is 1+1?"; "Name a prime."])
    ∧ ∀ content purpose,
        FilesCreate content purpose ∈ requests w' →
        FilesCreate content purpose ∈ requests stale_world
        ∨ content = jsonl_from 1 ["What is 1+1?"; "Name a prime."].
Proof.
  apply (jsonl_kept_when_upload_fails env_api_down stale_world
           ["What is 1+1?"; "Name a prime."]
           (OpenAIError "service unavailable")).
  - reflexivity.
  - discriminate.
  - reflexivity.
  - repeat constructor.
  - reflexivity.
  - reflexivity.
Defined.

(** With an API that answers, the script ends with status 0 after both
    calls. *)
Example script_submits :
  (script env_api_up stale_world).1 = Exited 0
  ∧ requests (script env_api_up stale_world).2
    = [upload_call (jsonl_from 1 ["What is 1+1?"; "Name a prime."]);
       batch_call "file-1" JSONL_PATH].
Proof. split; reflexivity. Qed.

(** A problem text with a line feed and a quote stays on one line. *)
Example dumps_escapes :
  dumps (JStr (String newline (String quote "x")))
  = String quote (String backslash ("n" +:+ String backslash
      (String quote ("x" +:+ String quote "")))).
Proof. reflexivity. Qed.

End send_batch_runs.

(** ** More on check_uniqueness.py *)

Section check_more.
Import CheckUniqueness.
Context `{Countable A} (hashable : A → bool).
Implicit Types (x : A) (items : list A) (seen dups : gset A).

(** Each step of the scan adds one value to at most one of the two sets. *)
Lemma scan_size items seen dups seen' dups' :
  scan hashable items seen dups = Return (seen', dups') →
  size seen' + size dups' ≤ size seen + size dups + length items.
Proof.
  revert seen dups.
  induction items as [|y items IH]; intros seen dups Hscan; simpl in *.
  - simplify_eq. lia.
  - unfold set_in, set_add in Hscan.
    destruct (hashable y); [|done]. simpl in Hscan.
    destruct (bool_decide (y ∈ seen)); simpl in Hscan;
      apply IH in Hscan.
    + pose proof (size_union_alt ({[y]} : gset A) dups) as Hu.
      rewrite size_singleton in Hu.
      assert (size (dups ∖ {[y]}) ≤ size dups)
        by (apply subseteq_size; set_solver).
      lia.
    + pose proof (size_union_alt ({[y]} : gset A) seen) as Hu.
      rewrite size_singleton in Hu.
      assert (size (seen ∖ {[y]}) ≤ size seen)
        by (apply subseteq_size; set_solver).
      lia.
Qed.

(** X1. An item that cannot be hashed makes the call raise [TypeError]
    in [set(items)], before anything is printed. *)
Theorem check_raises_on_unhashable items out x :
  x ∈ items →
  hashable x = false →
  check_list_uniqueness hashable items out = (Raise unhashable, out).
Proof.
  intros Hx Hnh. apply check_unhashable. intros Hall.
  apply (proj1 (Forall_forall _ _) Hall) in Hx. congruence.
Qed.

(** X2. The loop invariant of the scan, from any [seen] and [duplicates]:
    [seen] grows by exactly the items, [duplicates] only grows and only
    by items, and a value is a duplicate at the end if and only if it was
    one at the start, or was seen before and occurs in the items, or
    occurs at least twice in the items. *)
Theorem scan_invariant items seen dups :
  all_hashable hashable items →
  ∃ seen' dups',
    scan hashable items seen dups = Return (seen', dups')
    ∧ seen' = seen ∪ list_to_set items
    ∧ dups ⊆ dups'
    ∧ dups' ⊆ dups ∪ list_to_set items
    ∧ ∀ x, x ∈ dups' ↔
        x ∈ dups ∨ (x ∈ seen ∧ x ∈ items) ∨ 2 ≤ multiplicity x items.
Proof.
  intros Hh. destruct (scan_ok hashable items seen dups Hh)
    as (s & d & Hscan & Hs & Hd).
  exists s, d. split_and!; [done..| | |done].
  - intros x Hx. apply Hd. by left.
  - intros x [Hx|[[_ Hx]|Hx]]%Hd; [set_solver | set_solver |].
    apply elem_of_union_r, elem_of_list_to_set, multiplicity_elem_of. lia.
Qed.

(** X3. The call never reports more duplicate values than half the
    number of items. *)
Theorem duplicates_at_most_half items r :
  all_hashable hashable items →
  report_of (printed hashable items) = Some r →
  2 * size (duplicates r) ≤ length items.
Proof.
  intros Hh Hrep.
  destruct (report_run hashable items Hh) as (d & Hd & Hrep').
  rewrite Hrep' in Hrep. injection Hrep as <-. simpl.
  destruct (scan_ok hashable items ∅ ∅ Hh) as (s & d' & Hscan & Hs & Hd').
  assert (d = d') as ->.
  { apply set_eq. intros x. rewrite Hd, Hd'. set_solver. }
  apply scan_size in Hscan. rewrite !size_empty in Hscan.
  assert (size d' ≤ size s); [|lia].
  apply subseteq_size. intros x [?|[[? _]|Hx]]%Hd'; [set_solver..|].
  rewrite Hs. apply elem_of_union_r, elem_of_list_to_set,
    multiplicity_elem_of. lia.
Qed.

End check_more.

Section check_more_runs.
Import CheckUniqueness.

Lemma check_raises_on_unhashable_witness :
  check_list_uniqueness small_hashable [1; 2; 7; 1] [Text "earlier"]
  = (Raise unhashable, [Text "earlier"]).
Proof.
  apply (check_raises_on_unhashable small_hashable [1; 2; 7; 1] _ 7).
  - set_solver.
  - reflexivity.
Defined.

Lemma scan_invariant_witness :
  ∃ seen' dups',
    scan str_hashable ["b"; "c"; "b"] {["a"; "b"]} {["a"]}
    = Return (seen', dups')
    ∧ seen' = {["a"; "b"]} ∪ list_to_set ["b"; "c"; "b"]
    ∧ {["a"]} ⊆ dups'
    ∧ dups' ⊆ {["a"]} ∪ list_to_set ["b"; "c"; "b"]
    ∧ ∀ x, x ∈ dups' ↔
        x ∈ ({["a"]} : gset string)
        ∨ (x ∈ ({["a"; "b"]} : gset string) ∧ x ∈ ["b"; "c"; "b"])
        ∨ 2 ≤ multiplicity x ["b"; "c"; "b"].
Proof.
  apply (scan_invariant str_hashable).
  apply str_all_hashable.
Defined.

Lemma duplicates_at_most_half_witness :
  2 * size (duplicates (mkReport false ({["a"; "b"]} : gset string)))
  ≤ length ["b"; "a"; "c"; "b"; "a"].
Proof.
  apply (duplicates_at_most_half str_hashable).
  - apply str_all_hashable.
  - vm_compute. reflexivity.
Defined.

End check_more_runs.

(** ** More on the runs of send_batch.py *)

Section send_batch_more.
Import SendBatch.
Variable E : environment.
Implicit Types (w : world) (problems : list string) (path : Path).

(** X7. On texts that can be encoded, [write_jsonl] replaces the file
    and nothing else: what the file held before does not matter, the
    other files, the output and the calls made are untouched, and writing
    the same list again changes nothing. *)
Theorem write_jsonl_replaces problems path w :
  can_open_w E (path_str path) = true →
  all_encodable problems →
  ∃ w',
    write_jsonl E problems path w = (Return tt, w')
    ∧ files w' !! path_str path = Some (jsonl_from 1 problems)
    ∧ (∀ other, other ≠ path_str path → files w' !! other = files w !! other)
    ∧ stdout w' = stdout w
    ∧ requests w' = requests w
    ∧ write_jsonl E problems path w' = (Return tt, w').
Proof.
  intros Hopen Henc. eexists. split; [by apply write_jsonl_run|].
  cbn [files stdout requests]. split_and!; [| |done..|].
  - apply lookup_insert_eq.
  - intros other Hne. by apply lookup_insert_ne.
  - rewrite write_jsonl_run by done. cbn [files stdout requests].
    by rewrite insert_insert_eq.
Qed.

(** X8. On an empty list [write_jsonl] still opens the file: a file
    that was there is emptied, and the result has no record. *)
Theorem write_jsonl_empty path w :
  can_open_w E (path_str path) = true →
  write_jsonl E [] path w
  = (Return tt,
     mkWorld (stdout w) (<[path_str path := ""]> (files w)) (requests w))
  ∧ jsonl_lines "" = [].
Proof.
  intros Hopen. split; [|done]. apply write_jsonl_run; [done|constructor].
Qed.

(** The world [create_and_send_batch] leaves, however it ends. *)
Lemma create_and_send_batch_world path w :
  ∃ out reqs,
    (create_and_send_batch E path w).2
    = mkWorld (stdout w ++ out) (files w) (requests w ++ reqs)
    ∧ (reqs = []
       ∨ ∃ content,
           files w !! path_str path = Some content
           ∧ (reqs = [upload_call content]
              ∨ ∃ file_id,
                  files_create E content "batch" = Return file_id
                  ∧ reqs = [upload_call content;
                            batch_call file_id path])).
Proof.
  unfold create_and_send_batch, bind, lift, read_rb, client_files_create,
    client_batches_create, print.
  destruct (OpenAI E (api_key E)) as [[]|e1].
  2:{ exists [], []. rewrite !app_nil_r. destruct w; simpl; auto. }
  cbn [fst snd files stdout requests].
  destruct (files w !! path_str path) as [content|] eqn:Hread.
  2:{ exists [uploading path], []. rewrite app_nil_r. auto. }
  destruct (files_create E content "batch") as [file_id|e2] eqn:Hup.
  2:{ exists [uploading path], [upload_call content]. simpl. eauto 10. }
  simpl. destruct (batches_create E file_id _ _ _) as [batch_id|e3].
  - exists [uploading path; "File uploaded – id: " +:+ file_id;
            "Creating batch request…"; "Batch request submitted.";
            "Batch id: " +:+ batch_id],
           [upload_call content; batch_call file_id path].
    simpl. rewrite <-!(assoc_L (++)). eauto 10.
  - exists [uploading path; "File uploaded – id: " +:+ file_id;
            "Creating batch request…"],
           [upload_call content; batch_call file_id path].
    simpl. rewrite <-!(assoc_L (++)). eauto 10.
Qed.

(** X9. [create_and_send_batch] never changes a file; it uploads what
    the file holds at that moment, and asks for a batch only after the
    upload has returned, for the identifier the upload returned. *)
Theorem create_and_send_batch_effects path w :
  ∃ out reqs,
    (create_and_send_batch E path w).2
    = mkWorld (stdout w ++ out) (files w) (requests w ++ reqs)
    ∧ (reqs = []
       ∨ ∃ content,
           files w !! path_str path = Some content
           ∧ (reqs = [upload_call content]
              ∨ ∃ file_id,
                  files_create E content "batch" = Return file_id
                  ∧ reqs = [upload_call content;
                            batch_call file_id path])).
Proof. apply create_and_send_batch_world. Qed.

(** X10. Without the file there is nothing to upload: opening it raises
    [OSError] once the client is built and the first line is printed,
    and no call reaches the API. *)
Theorem create_and_send_batch_missing_file path w :
  files w !! path_str path = None →
  OpenAI E (api_key E) = Return tt →
  create_and_send_batch E path w
  = (Raise (OSError "no such file"),
     mkWorld (stdout w ++ [uploading path]) (files w) (requests w)).
Proof.
  intros Hread Hclient.
  unfold create_and_send_batch, bind, lift, read_rb, print.
  rewrite Hclient. simpl. by rewrite Hread.
Qed.

(** X11. Only [ImportError] is handled in [load_problems]: another
    exception raised by the import leaves [load_problems] and [main] as
    it is, with nothing printed, written or sent. *)
Theorem import_failure_propagates w e :
  import_problems E = Raise e →
  is_ImportError e = false →
  load_problems E w = (Raise e, w) ∧ main E w = (Raise e, w).
Proof.
  intros Himp He. split; [|by apply main_import_raises].
  unfold load_problems, bind, try_except, lift. by rewrite Himp, He.
Qed.

(** X12. A failure to open the JSONL file is not handled: [OSError]
    leaves [main] after the first line is printed, the script ends on the
    uncaught exception, no file is changed and no call reaches the API. *)
Theorem write_failure_propagates w problems :
  import_problems E = Return (PyList problems) →
  problems ≠ [] →
  can_open_w E (path_str JSONL_PATH) = false →
  script E w
  = (Uncaught (OSError "cannot open for writing"),
     mkWorld (stdout w ++ [loaded_line problems]) (files w) (requests w)).
Proof.
  intros Himp Hne Hopen. unfold script.
  by rewrite (main_write_fails E w problems).
Qed.

(** X13. [except Exception] lets [KeyboardInterrupt] and [SystemExit]
    through: once the problems are written (the file opens, the texts can
    be encoded), such an exception raised during the upload leaves [main]
    unlogged, with the JSONL file written. *)
Theorem interrupt_propagates w problems e :
  import_problems E = Return (PyList problems) →
  problems ≠ [] →
  can_open_w E (path_str JSONL_PATH) = true →
  all_encodable problems →
  api_answers E (jsonl_from 1 problems) JSONL_PATH = Raise e →
  is_Exception e = false →
  ∃ out w',
    main E w = (Raise e, w')
    ∧ stdout w' = stdout w ++ [loaded_line problems; written_line] ++ out
    ∧ (∀ line, line ∈ out →
         line = uploading JSONL_PATH
         ∨ line = "Creating batch request…"
         ∨ ∃ file_id, line = "File uploaded – id: " +:+ file_id)
    ∧ files w' = <[path_str JSONL_PATH := jsonl_from 1 problems]> (files w).
Proof.
  intros Himp Hne Hopen Henc Hapi He.
  rewrite (main_written E w problems) by done.
  pose proof (written_lookup problems w) as Hread.
  unfold api_answers, obind in Hapi.
  unfold create_and_send_batch, bind, lift, read_rb, client_files_create,
    client_batches_create, print.
  destruct (OpenAI E (api_key E)) as [[]|e1].
  2:{ simplify_eq. rewrite He. exists [], (written problems w).
      rewrite app_nil_r. split_and!; [done..| |done].
      by intros line ?%elem_of_nil. }
  cbn [fst snd files stdout requests]. rewrite Hread.
  destruct (files_create E _ "batch") as [file_id|e2].
  2:{ simplify_eq. rewrite He. eexists [_], _.
      split_and!; [done| | |done].
      - cbn [stdout written]. by rewrite <-(assoc_L (++)).
      - intros line ->%list_elem_of_singleton. by left. }
  cbn [fst snd files stdout requests].
  destruct (batches_create E file_id _ _ _) as [batch_id|e3]; [done|].
  simplify_eq. rewrite He. eexists [_; _; _], _.
  split_and!; [done| | |done].
  - cbn [stdout written]. by rewrite <-!(assoc_L (++)).
  - intros line Hline. set_solver.
Qed.

(** The world [main] leaves, however it ends: the file system is the one
    before or has the JSONL file replaced, and which of the two depends on
    the environment only. *)
Lemma main_world w :
  ∃ out reqs,
    (main E w).2
    = mkWorld (stdout w ++ out)
              (match import_problems E with
               | Return (PyList problems) =>
                   if bool_decide (problems ≠ [])
                      && can_open_w E (path_str JSONL_PATH)
                   then <[path_str JSONL_PATH :=
                            jsonl_from 1 (encodable_prefix problems)]>
                          (files w)
                   else files w
               | _ => files w
               end)
              (requests w ++ reqs)
    ∧ (reqs = []
       ∨ ∃ content,
           files (main E w).2 !! path_str JSONL_PATH = Some content
           ∧ (reqs = [upload_call content]
              ∨ ∃ file_id,
                  files_create E content "batch" = Return file_id
                  ∧ reqs = [upload_call content;
                            batch_call file_id JSONL_PATH])).
Proof.
  destruct (import_problems E) as [[problems|]|e] eqn:Himp.
  - destruct (decide (problems = [])) as [->|Hne].
    { rewrite main_empty by done. eexists [_], [].
      rewrite app_nil_r. by split; [|left]. }
    rewrite bool_decide_eq_true_2 by done. cbn [andb].
    destruct (can_open_w E (path_str JSONL_PATH)) eqn:Hopen.
    2:{ rewrite (main_write_fails E w problems) by done.
        eexists [_], []. rewrite app_nil_r. by split; [|left]. }
    destruct (forallb utf8_encodable problems) eqn:Henc.
    2:{ rewrite (main_encode_fails E w problems) by done.
        eexists [_], []. rewrite app_nil_r. by split; [|left]. }
    apply forallb_all_encodable in Henc.
    rewrite (encodable_prefix_all problems) by done.
    rewrite (main_written E w problems) by done.
    destruct (create_and_send_batch_world JSONL_PATH (written problems w))
      as (out & reqs & Hw & Hreqs).
    destruct (create_and_send_batch E JSONL_PATH (written problems w))
      as [[[]|e] w']; cbn [snd] in Hw; subst w'.
    + eexists _, reqs. cbn [snd stdout files requests written].
      by rewrite <-(assoc_L (++)).
    + destruct (is_Exception e).
      * eexists _, reqs. cbn [snd stdout files requests written].
        by rewrite <-!(assoc_L (++)).
      * eexists _, reqs. cbn [snd stdout files requests written].
        by rewrite <-(assoc_L (++)).
  - rewrite main_not_a_list by done. eexists [_], [].
    rewrite app_nil_r. by split; [|left].
  - destruct (is_ImportError e) eqn:He.
    + destruct e; try done. rewrite (main_import_error E w msg) by done.
      eexists [_], []. rewrite app_nil_r. by split; [|left].
    + rewrite (main_import_raises E w e) by done.
      exists [], []. rewrite !app_nil_r. split; [by destruct w | by left].
Qed.

(** X14. However [main] ends, it changes no file but the JSONL file,
    keeps what was printed and sent before, and makes at most two calls
    to the API. *)
Theorem main_frame w :
  (∀ other,
     other ≠ path_str JSONL_PATH →
     files (main E w).2 !! other = files w !! other)
  ∧ (∃ out, stdout (main E w).2 = stdout w ++ out)
  ∧ (∃ reqs, requests (main E w).2 = requests w ++ reqs ∧ length reqs ≤ 2).
Proof.
  destruct (main_world w) as (out & reqs & -> & Hreqs).
  cbn [stdout files requests]. split_and!; [|by eexists|].
  2:{ exists reqs. split; [done|].
      destruct Hreqs as [->|(c & _ & [->|(f & _ & ->)])]; simpl; lia. }
  intros other Hne.
  destruct (import_problems E) as [[problems|]|e]; [|done..].
  destruct (_ && _); [|done]. by rewrite lookup_insert_ne.
Qed.

(** X15. Running [main] again in the same environment leaves the files
    as the first run left them. *)
Theorem main_twice_same_files w :
  files (main E (main E w).2).2 = files (main E w).2.
Proof.
  destruct (main_world w) as (out & reqs & Hw & _).
  destruct (main_world (main E w).2) as (out' & reqs' & -> & _).
  rewrite Hw. cbn [files].
  destruct (import_problems E) as [[problems|]|e]; [|done..].
  destruct (_ && _); [|done]. by rewrite insert_insert_eq.
Qed.

(** No run of [main] ends in [SystemExit(0)] when the import and the
    client raise ordinary exceptions only. *)
Lemma main_no_exit_0 w w' :
  ordinary_failures E → main E w ≠ (Raise (SystemExit 0), w').
Proof.
  intros [Himport Hclient] Hmain.
  destruct (import_problems E) as [[problems|]|e] eqn:Himp.
  - destruct (decide (problems = [])) as [->|Hne].
    { by rewrite main_empty in Hmain. }
    destruct (can_open_w E (path_str JSONL_PATH)) eqn:Hopen.
    2:{ by rewrite (main_write_fails E w problems) in Hmain. }
    destruct (forallb utf8_encodable problems) eqn:Henc.
    2:{ by rewrite (main_encode_fails E w problems) in Hmain. }
    apply forallb_all_encodable in Henc.
    destruct (api_answers E (jsonl_from 1 problems) JSONL_PATH)
      as [[file_id batch_id]|e] eqn:Hapi.
    + by rewrite (main_submitted E w problems file_id batch_id) in Hmain.
    + destruct (main_upload_fails E w problems e)
        as (out & reqs & Hrun & _); [done..|].
      rewrite Hrun, (Hclient _ _ Hapi) in Hmain. done.
  - by rewrite main_not_a_list in Hmain.
  - destruct (is_ImportError e) eqn:He.
    + destruct e; try done. by rewrite (main_import_error E w msg) in Hmain.
    + rewrite (main_import_raises E w e) in Hmain by done.
      specialize (Himport e eq_refl). by simplify_eq.
Qed.

(** X16. When the import and the client raise ordinary exceptions only,
    the script ends with status 0 exactly when the problem list is not
    empty, the file could be opened, every problem text could be encoded
    and both calls to the API were answered. *)
Theorem script_succeeds_iff w :
  ordinary_failures E →
  succeeded (script E w).1 ↔
  ∃ problems ids,
    import_problems E = Return (PyList problems)
    ∧ problems ≠ []
    ∧ can_open_w E (path_str JSONL_PATH) = true
    ∧ all_encodable problems
    ∧ api_answers E (jsonl_from 1 problems) JSONL_PATH = Return ids.
Proof.
  intros Hord. unfold succeeded, script. split.
  - destruct (main E w) as [[code|e] w'] eqn:Hmain.
    + cbn [fst]. intros [= ->].
      apply main_returns in Hmain as [[_ ?]|(ps & ? & ? & ? & ? & Hapi)];
        [done|].
      destruct Hapi as [(ids & ? & _)|(e & _ & _ & ?)]; [|done].
      by exists ps, ids.
    + destruct e; cbn [fst]; intros [= ->].
      by apply main_no_exit_0 in Hmain.
  - intros (ps & [file_id batch_id] & Himp & Hne & Hopen & Henc & Hapi).
    by rewrite (main_submitted E w ps file_id batch_id).
Qed.

(** X18. What [main] sends is what it wrote: every upload it makes
    carries, for the purpose [batch], the content the JSONL file has when
    [main] ends, and a batch is requested only for the identifier that
    upload returned, with the endpoint, window and description of the
    source. *)
Theorem main_uploads_the_file w :
  ∃ reqs,
    requests (main E w).2 = requests w ++ reqs
    ∧ (∀ content purpose,
         FilesCreate content purpose ∈ reqs →
         purpose = "batch"
         ∧ files (main E w).2 !! path_str JSONL_PATH = Some content)
    ∧ (∀ file_id endpoint window description,
         BatchesCreate file_id endpoint window description ∈ reqs →
         endpoint = "/v1/chat/completions"
         ∧ window = "24h"
         ∧ description = "ecodev_2000_problems"
         ∧ ∃ content,
             FilesCreate content "batch" ∈ reqs
             ∧ files_create E content "batch" = Return file_id).
Proof.
  destruct (main_world w) as (out & reqs & Hw & Hreqs).
  exists reqs. split; [by rewrite Hw|].
  unfold upload_call, batch_call in Hreqs.
  destruct Hreqs as [->|(c & Hc & [->|(f & Hf & ->)])].
  - split; intros; set_solver.
  - split.
    + intros content purpose [=]%list_elem_of_singleton. by subst.
    + intros ???? [=]%list_elem_of_singleton.
  - split.
    + intros content purpose Hin.
      apply elem_of_cons in Hin as [[= -> ->]|Hin]; [done|].
      by apply list_elem_of_singleton in Hin.
    + intros file_id endpoint window description Hin.
      apply elem_of_cons in Hin as [[=]|Hin].
      apply list_elem_of_singleton in Hin as [= -> -> -> ->].
      split_and!; [done..|]. exists c. split; [set_solver | done].
Qed.

(** X19. A problem text that cannot be encoded in UTF-8 ends the run in
    [write_jsonl], outside the [try]: [fp.write] raises
    [UnicodeEncodeError], the script ends on it uncaught after the first
    line is printed, the file holds the records of the problems before
    that text, and no call reaches the API. *)
Theorem encode_failure_propagates w problems :
  import_problems E = Return (PyList problems) →
  problems ≠ [] →
  can_open_w E (path_str JSONL_PATH) = true →
  ¬ all_encodable problems →
  script E w
  = (Uncaught (UnicodeEncodeError "surrogates not allowed"),
     mkWorld (stdout w ++ [loaded_line problems])
             (<[path_str JSONL_PATH :=
                  jsonl_from 1 (encodable_prefix problems)]> (files w))
             (requests w))
  ∧ length (encodable_prefix problems) < length problems.
Proof.
  intros Himp Hne Hopen Henc.
  assert (forallb utf8_encodable problems = false) as Hb.
  { destruct (forallb utf8_encodable problems) eqn:Hb; [|done].
    by apply forallb_all_encodable in Hb. }
  split; [unfold script; by rewrite (main_encode_fails E w problems)|].
  clear -Hb. induction problems as [|problem rest IH]; [done|].
  simpl in *. destruct (utf8_encodable problem); simpl in *; [|lia].
  apply IH in Hb. lia.
Qed.

End send_batch_more.

(** ** The extra facts on sample runs *)

Section send_batch_more_runs.
Import SendBatch.

Lemma write_jsonl_replaces_witness :
  ∃ w',
    write_jsonl env_api_up ["What is 1+1?"] JSONL_PATH stale_world
    = (Return tt, w')
    ∧ files w' !! path_str JSONL_PATH = Some (jsonl_from 1 ["What is 1+1?"])
    ∧ (∀ other,
         other ≠ path_str JSONL_PATH →
         files w' !! other = files stale_world !! other)
    ∧ stdout w' = stdout stale_world
    ∧ requests w' = requests stale_world
    ∧ write_jsonl env_api_up ["What is 1+1?"] JSONL_PATH w' = (Return tt, w').
Proof.
  apply (write_jsonl_replaces env_api_up ["What is 1+1?"] JSONL_PATH
           stale_world).
  - reflexivity.
  - repeat constructor.
Defined.

Lemma write_jsonl_empty_witness :
  write_jsonl env_api_up [] JSONL_PATH stale_world
  = (Return tt,
     mkWorld [] (<[path_str JSONL_PATH := ""]> (files stale_world)) [])
  ∧ jsonl_lines "" = [].
Proof.
  apply (write_jsonl_empty env_api_up JSONL_PATH stale_world).
  reflexivity.
Defined.

Lemma create_and_send_batch_missing_file_witness :
  create_and_send_batch env_api_up JSONL_PATH fresh_world
  = (Raise (OSError "no such file"),
     mkWorld [uploading JSONL_PATH] ∅ []).
Proof.
  apply (create_and_send_batch_missing_file env_api_up JSONL_PATH
           fresh_world).
  - apply lookup_empty.
  - reflexivity.
Defined.

Lemma import_failure_propagates_witness :
  load_problems env_broken_import stale_world
  = (Raise (TypeError "unsupported operand"), stale_world)
  ∧ main env_broken_import stale_world
    = (Raise (TypeError "unsupported operand"), stale_world).
Proof.
  apply (import_failure_propagates env_broken_import stale_world).
  - reflexivity.
  - reflexivity.
Defined.

Lemma write_failure_propagates_witness :
  script env_read_only stale_world
  = (Uncaught (OSError "cannot open for writing"),
     mkWorld ["Loaded 2 problems."] (files stale_world) []).
Proof.
  apply (write_failure_propagates env_read_only stale_world
           ["What is 1+1?"; "Name a prime."]).
  - reflexivity.
  - discriminate.
  - reflexivity.
Defined.

Lemma interrupt_propagates_witness :
  ∃ out w',
    main env_interrupted stale_world = (Raise KeyboardInterrupt, w')
    ∧ stdout w'
      = stdout stale_world
        ++ [loaded_line ["What is 1+1?"; "Name a prime."]; written_line]
        ++ out
    ∧ (∀ line, line ∈ out →
         line = uploading JSONL_PATH
         ∨ line = "Creating batch request…"
         ∨ ∃ file_id, line = "File uploaded – id: " +:+ file_id)
    ∧ files w'
      = <[path_str JSONL_PATH :=
            jsonl_from 1 ["What is 1+1?"; "Name a prime."]]>
          (files stale_world).
Proof.
  apply (interrupt_propagates env_interrupted stale_world
           ["What is 1+1?"; "Name a prime."] KeyboardInterrupt).
  - reflexivity.
  - discriminate.
  - reflexivity.
  - repeat constructor.
  - reflexivity.
  - reflexivity.
Defined.

Lemma script_succeeds_iff_witness :
  succeeded (script env_api_up stale_world).1 ↔
  ∃ problems ids,
    import_problems env_api_up = Return (PyList problems)
    ∧ problems ≠ []
    ∧ can_open_w env_api_up (path_str JSONL_PATH) = true
    ∧ all_encodable problems
    ∧ api_answers env_api_up (jsonl_from 1 problems) JSONL_PATH = Return ids.
Proof.
  apply (script_succeeds_iff env_api_up stale_world).
  split; [intros e [=] | intros content e [=]].
Defined.

Lemma encode_failure_propagates_witness :
  script env_surrogate stale_world
  = (Uncaught (UnicodeEncodeError "surrogates not allowed"),
     mkWorld ["Loaded 3 problems."]
             (<[path_str JSONL_PATH :=
                  jsonl_from 1 (encodable_prefix
                                  ["What is 1+1?"; lone_surrogate;
                                   "Name a prime."])]>
                (files stale_world))
             [])
  ∧ length (encodable_prefix
              ["What is 1+1?"; lone_surrogate; "Name a prime."])
    < length ["What is 1+1?"; lone_surrogate; "Name a prime."].
Proof.
  apply (encode_failure_propagates env_surrogate stale_world
           ["What is 1+1?"; lone_surrogate; "Name a prime."]).
  - reflexivity.
  - discriminate.
  - reflexivity.
  - intros Henc. apply Forall_cons in Henc as [_ Henc].
    apply Forall_cons in Henc as [Hbad _]. discriminate Hbad.
Defined.

End send_batch_more_runs.
